(** * Custom Dropdown: a shallow embedding of [script.js]

    The page is a list of [Dropdown] instances, in the order in which
    [initDropdowns] constructs them.  Every instance owns the DOM elements
    the constructor looks up (container, trigger, value display and option
    elements); an element is a class list, an attribute map and its inner
    HTML.  Methods of the class are page transformers indexed by the
    position of [this]; [console.log] and [dispatchEvent] append to a trace
    that records, with each output, the instances as an observer would see
    them at that moment. *)

From stdpp Require Import gmap strings list.
From Stdlib Require Import ZArith Lia.

Open Scope string_scope.
Open Scope list_scope.
Open Scope Z_scope.

(** ** JavaScript values *)

(** A field that holds [null], [undefined] or a proper value. *)
Inductive js (A : Type) : Type :=
| Null
| Undefined
| Val (a : A).
Arguments Null {A}.
Arguments Undefined {A}.
Arguments Val {A} a.

(** Truthiness, for fields that hold objects: [if (this.selectedOption)]. *)
Definition truthy {A : Type} (v : js A) : bool :=
  match v with
  | Val _ => true
  | _ => false
  end.

(** How a statement completes: normally, or by throwing. *)
Inductive completion : Type :=
| Normal
| Throw (err : string).

(** ** DOM elements *)

Record Element : Type := mkElement {
  classList : gset string;
  attributes : gmap string string;
  innerHTML : string
}.

Definition classList_add (c : string) (e : Element) : Element :=
  mkElement ({[c]} ∪ classList e) (attributes e) (innerHTML e).

Definition classList_remove (c : string) (e : Element) : Element :=
  mkElement (classList e ∖ {[c]}) (attributes e) (innerHTML e).

Definition classList_contains (c : string) (e : Element) : bool :=
  bool_decide (c ∈ classList e).

Definition setAttribute (k v : string) (e : Element) : Element :=
  mkElement (classList e) (<[k:=v]> (attributes e)) (innerHTML e).

Definition getAttribute (k : string) (e : Element) : option string :=
  attributes e !! k.

Definition set_innerHTML (h : string) (e : Element) : Element :=
  mkElement (classList e) (attributes e) h.

(** [element.dataset.value]: the [data-value] attribute, [undefined] when
    the attribute is missing. *)
Definition dataset_value (e : Element) : js string :=
  match getAttribute "data-value" e with
  | Some v => Val v
  | None => Undefined
  end.

(** [element.id]: the [id] attribute, the empty string when missing. *)
Definition element_id (e : Element) : string :=
  default EmptyString (getAttribute "id" e).

(** ** Dropdown instances *)

(** A reference to an option element: the position of the owning dropdown
    in the page and the position of the element in its [options] array. *)
Definition optref : Type := nat * nat.

Record Dropdown : Type := mkDropdown {
  (* core elements *)
  dropdown : Element;
  trigger : Element;
  valueDisplay : Element;
  options : list Element;
  (* state *)
  isOpen : bool;
  selectedValue : js string;
  selectedOption : js optref;
  focusedIndex : Z;
  placeholder : string;
  (* listeners added by init(): trigger 'click' -> toggle, option 'click'
     -> selectOption, container 'keydown' -> handleKeyboard, document
     'click' -> handleClickOutside *)
  on_trigger_click : bool;
  on_option_click : bool;
  on_keydown : bool;
  on_document_click : bool;
  (* element._dropdownInstance has been set by initDropdowns *)
  dropdownInstance : bool
}.

Definition set_dropdown (e : Element) (s : Dropdown) : Dropdown :=
  mkDropdown e (trigger s) (valueDisplay s) (options s) (isOpen s)
    (selectedValue s) (selectedOption s) (focusedIndex s) (placeholder s)
    (on_trigger_click s) (on_option_click s) (on_keydown s)
    (on_document_click s) (dropdownInstance s).

Definition set_trigger (e : Element) (s : Dropdown) : Dropdown :=
  mkDropdown (dropdown s) e (valueDisplay s) (options s) (isOpen s)
    (selectedValue s) (selectedOption s) (focusedIndex s) (placeholder s)
    (on_trigger_click s) (on_option_click s) (on_keydown s)
    (on_document_click s) (dropdownInstance s).

Definition set_valueDisplay (e : Element) (s : Dropdown) : Dropdown :=
  mkDropdown (dropdown s) (trigger s) e (options s) (isOpen s)
    (selectedValue s) (selectedOption s) (focusedIndex s) (placeholder s)
    (on_trigger_click s) (on_option_click s) (on_keydown s)
    (on_document_click s) (dropdownInstance s).

Definition set_options (l : list Element) (s : Dropdown) : Dropdown :=
  mkDropdown (dropdown s) (trigger s) (valueDisplay s) l (isOpen s)
    (selectedValue s) (selectedOption s) (focusedIndex s) (placeholder s)
    (on_trigger_click s) (on_option_click s) (on_keydown s)
    (on_document_click s) (dropdownInstance s).

Definition set_isOpen (b : bool) (s : Dropdown) : Dropdown :=
  mkDropdown (dropdown s) (trigger s) (valueDisplay s) (options s) b
    (selectedValue s) (selectedOption s) (focusedIndex s) (placeholder s)
    (on_trigger_click s) (on_option_click s) (on_keydown s)
    (on_document_click s) (dropdownInstance s).

Definition set_selectedValue (v : js string) (s : Dropdown) : Dropdown :=
  mkDropdown (dropdown s) (trigger s) (valueDisplay s) (options s) (isOpen s)
    v (selectedOption s) (focusedIndex s) (placeholder s)
    (on_trigger_click s) (on_option_click s) (on_keydown s)
    (on_document_click s) (dropdownInstance s).

Definition set_selectedOption (o : js optref) (s : Dropdown) : Dropdown :=
  mkDropdown (dropdown s) (trigger s) (valueDisplay s) (options s) (isOpen s)
    (selectedValue s) o (focusedIndex s) (placeholder s)
    (on_trigger_click s) (on_option_click s) (on_keydown s)
    (on_document_click s) (dropdownInstance s).

Definition set_focusedIndex (i : Z) (s : Dropdown) : Dropdown :=
  mkDropdown (dropdown s) (trigger s) (valueDisplay s) (options s) (isOpen s)
    (selectedValue s) (selectedOption s) i (placeholder s)
    (on_trigger_click s) (on_option_click s) (on_keydown s)
    (on_document_click s) (dropdownInstance s).

(** [removeEventListener] for the three listeners [destroy] names.  The
    option listeners are anonymous arrow functions and stay. *)
Definition remove_listeners (s : Dropdown) : Dropdown :=
  mkDropdown (dropdown s) (trigger s) (valueDisplay s) (options s) (isOpen s)
    (selectedValue s) (selectedOption s) (focusedIndex s) (placeholder s)
    false (on_option_click s) false false (dropdownInstance s).

Definition set_dropdownInstance (b : bool) (s : Dropdown) : Dropdown :=
  mkDropdown (dropdown s) (trigger s) (valueDisplay s) (options s) (isOpen s)
    (selectedValue s) (selectedOption s) (focusedIndex s) (placeholder s)
    (on_trigger_click s) (on_option_click s) (on_keydown s)
    (on_document_click s) b.

(** ** Outputs and pages *)

(** The [detail] of the 'dropdown:select' event: the value, the option
    element and the container element ([this.dropdown], the position of the
    instance in the page). *)
Record Detail : Type := mkDetail {
  detail_value : js string;
  detail_option : optref;
  detail_dropdown : nat
}.

Inductive output : Type :=
| ConsoleLog (msg : string) (arg : js string)
| ConsoleLogCount (count : nat)
| DispatchEvent (target : nat) (type : string) (detail : Detail)
| Uncaught (err : string).

Record Page : Type := mkPage {
  instances : list Dropdown;
  trace : list (output * list Dropdown)
}.

(** An output, together with what can be observed when it is produced. *)
Definition emit (o : output) (p : Page) : Page :=
  mkPage (instances p) (trace p ++ [(o, instances p)]).

(** Assignment to fields of instance [d]. *)
Definition update (d : nat) (f : Dropdown -> Dropdown) (p : Page) : Page :=
  mkPage (alter f d (instances p)) (trace p).

(** Mutation of the option element a reference points to. *)
Definition update_option (r : optref) (f : Element -> Element) (p : Page)
  : Page :=
  update (fst r) (fun s => set_options (alter f (snd r) (options s)) s) p.

Definition deref (r : optref) (p : Page) : option Element :=
  match instances p !! fst r with
  | Some s => options s !! snd r
  | None => None
  end.

(** [this.options] as an array of element references. *)
Definition option_refs (d : nat) (s : Dropdown) : list optref :=
  map (fun k => (d, k)) (seq 0 (length (options s))).

(** [this.options[i]] for a number [i]. *)
Definition options_at (d : nat) (s : Dropdown) (i : Z) : js optref :=
  if (0 <=? i) && (i <? Z.of_nat (length (options s)))
  then Val (d, Z.to_nat i)
  else Undefined.

(** [Array.prototype.indexOf]: the first position holding [x], or -1. *)
Fixpoint indexOf_from (x : optref) (l : list optref) (i : Z) : Z :=
  match l with
  | [] => -1
  | y :: l' => if decide (x = y) then i else indexOf_from x l' (i + 1)
  end.

Definition indexOf (x : optref) (l : list optref) : Z := indexOf_from x l 0.

(** The index the spec calls [selectedIndex]: where [selectedOption] sits in
    [options], -1 for none. *)
Definition selectedIndex (d : nat) (s : Dropdown) : Z :=
  match selectedOption s with
  | Val r => indexOf r (option_refs d s)
  | _ => -1
  end.

(** ** The methods of [class Dropdown]

    [d] is the position of [this] in the page.  A position that holds no
    instance has no methods to call; the model leaves the page as it is. *)

Definition log_id (msg : string) (d : nat) (p : Page) : Page :=
  match instances p !! d with
  | Some s => emit (ConsoleLog msg (Val (element_id (dropdown s)))) p
  | None => p
  end.

(** The assignments of [close()] after its guard. *)
Definition close_effects (s : Dropdown) : Dropdown :=
  let s := set_isOpen false s in
  let s := set_dropdown (classList_remove "is-open" (dropdown s)) s in
  let s := set_trigger (setAttribute "aria-expanded" "false" (trigger s)) s in
  let s := set_options (map (classList_remove "is-focused") (options s)) s in
  set_focusedIndex (-1) s.

Definition close (d : nat) (p : Page) : Page :=
  match instances p !! d with
  | None => p
  | Some s =>
      if negb (isOpen s) then p
      else log_id "Dropdown closed:" d (update d close_effects p)
  end.

(** [document.querySelectorAll('.dropdown.is-open')], restricted to the
    container elements of the page: a static list, in document order. *)
Definition matches_dropdown_is_open (s : Dropdown) : bool :=
  classList_contains "dropdown" (dropdown s)
  && classList_contains "is-open" (dropdown s).

Definition querySelectorAll_dropdown_is_open (p : Page) : list nat :=
  List.filter
    (fun j => match instances p !! j with
              | Some s => matches_dropdown_is_open s
              | None => false
              end)
    (seq 0 (length (instances p))).

(** The body of the [forEach] in [open()]. *)
Definition close_other (d : nat) (p : Page) (j : nat) : Page :=
  if negb (Nat.eqb j d) then
    match instances p !! j with
    | Some s => if dropdownInstance s then close j p else p
    | None => p
    end
  else p.

Definition close_others (d : nat) (p : Page) : Page :=
  foldl (close_other d) p (querySelectorAll_dropdown_is_open p).

(** The assignments of [open()] after the broadcast. *)
Definition open_effects (d : nat) (s : Dropdown) : Dropdown :=
  let s := set_isOpen true s in
  let s := set_dropdown (classList_add "is-open" (dropdown s)) s in
  let s := set_trigger (setAttribute "aria-expanded" "true" (trigger s)) s in
  set_focusedIndex
    (if truthy (selectedOption s)
     then match selectedOption s with
          | Val r => indexOf r (option_refs d s)
          | _ => -1
          end
     else -1) s.

Definition open (d : nat) (p : Page) : Page :=
  match instances p !! d with
  | None => p
  | Some s =>
      if isOpen s then p
      else
        let p := close_others d p in
        let p := update d (open_effects d) p in
        log_id "Dropdown opened:" d p
  end.

(** [toggle(e)]; [e.stopPropagation()] is the dispatcher's business. *)
Definition toggle (d : nat) (p : Page) : Page :=
  match instances p !! d with
  | None => p
  | Some s => if isOpen s then close d p else open d p
  end.

Definition unmark_selected (e : Element) : Element :=
  setAttribute "aria-selected" "false" (classList_remove "is-selected" e).

Definition mark_selected (e : Element) : Element :=
  setAttribute "aria-selected" "true" (classList_add "is-selected" e).

Definition show_selection (html : string) (s : Dropdown) : Dropdown :=
  set_valueDisplay
    (classList_remove "is-placeholder" (set_innerHTML html (valueDisplay s)))
    s.

Definition select_event (d : nat) (r : optref) (p : Page) : output :=
  DispatchEvent d "dropdown:select"
    (mkDetail
       (match instances p !! d with
        | Some s => selectedValue s
        | None => Undefined
        end)
       r d).

Definition log_selected (d : nat) (p : Page) : Page :=
  match instances p !! d with
  | Some s => emit (ConsoleLog "Option selected:" (selectedValue s)) p
  | None => p
  end.

(** [selectOption(option, index)].  [option] is whatever the caller passes:
    an option element or, from an array access out of range, [undefined];
    reading [option.dataset] of [null] or [undefined] throws a TypeError
    after the statements before it have run.  A reference that resolves to
    no element of the page stands for no object of the source and is
    treated like [undefined].  The body never reads [index]. *)
Definition selectOption (d : nat) (option : js optref) (index : Z) (p : Page)
  : Page * completion :=
  match instances p !! d with
  | None => (p, Normal)
  | Some self =>
      (* Remove previous selection *)
      let p := match selectedOption self with
               | Val prev => update_option prev unmark_selected p
               | _ => p
               end in
      (* Set new selection *)
      let p := update d (set_selectedOption option) p in
      match option with
      | Val r =>
          match deref r p with
          | Some el =>
              let p := update d (set_selectedValue (dataset_value el)) p in
              (* Update UI *)
              let p := update_option r mark_selected p in
              (* Update trigger display *)
              let optionHTML := innerHTML el in
              let p := update d (show_selection optionHTML) p in
              (* Close dropdown *)
              let p := close d p in
              (* Emit custom event *)
              let p := emit (select_event d r p) p in
              (log_selected d p, Normal)
          | None => (p, Throw "TypeError")
          end
      | _ => (p, Throw "TypeError")
      end
  end.

(** Where a click lands: on the trigger of dropdown [d] (or inside it), on
    its option [k] (or inside it), elsewhere in the subtree of its
    container, or outside every dropdown. *)
Inductive node : Type :=
| TriggerOf (d : nat)
| OptionOf (d k : nat)
| InsideOf (d : nat)
| Outside.

(** [this.dropdown.contains(e.target)]. *)
Definition contains (d : nat) (t : node) : bool :=
  match t with
  | TriggerOf d' | OptionOf d' _ | InsideOf d' => Nat.eqb d d'
  | Outside => false
  end.

Definition handleClickOutside (d : nat) (target : node) (p : Page) : Page :=
  match instances p !! d with
  | None => p
  | Some s =>
      if negb (isOpen s) then p
      else if negb (contains d target) then close d p
      else p
  end.

(** [updateFocusedOption()]; scrolling has no state in the model. *)
Definition updateFocusedOption_effects (s : Dropdown) : Dropdown :=
  let s := set_options (map (classList_remove "is-focused") (options s)) s in
  if (0 <=? focusedIndex s)
     && (focusedIndex s <? Z.of_nat (length (options s)))
  then set_options
         (alter (classList_add "is-focused") (Z.to_nat (focusedIndex s))
            (options s)) s
  else s.

Definition updateFocusedOption (d : nat) (p : Page) : Page :=
  update d updateFocusedOption_effects p.

Definition focusNextOption (d : nat) (p : Page) : Page :=
  let p := update d
             (fun s => set_focusedIndex
                         (Z.min (focusedIndex s + 1)
                            (Z.of_nat (length (options s)) - 1)) s) p in
  updateFocusedOption d p.

Definition focusPreviousOption (d : nat) (p : Page) : Page :=
  let p := update d
             (fun s => set_focusedIndex (Z.max (focusedIndex s - 1) 0) s) p in
  updateFocusedOption d p.

Definition focusFirstOption (d : nat) (p : Page) : Page :=
  let p := update d (set_focusedIndex 0) p in
  updateFocusedOption d p.

Definition focusLastOption (d : nat) (p : Page) : Page :=
  let p := update d
             (fun s => set_focusedIndex
                         (Z.of_nat (length (options s)) - 1) s) p in
  updateFocusedOption d p.

(** [handleKeyboard(e)], on [e.key].  [e.preventDefault()] and
    [this.trigger.focus()] have no state in the model. *)
Definition handleKeyboard (d : nat) (key : string) (p : Page)
  : Page * completion :=
  match instances p !! d with
  | None => (p, Normal)
  | Some s =>
      if negb (isOpen s) && negb (String.eqb key "Enter")
         && negb (String.eqb key " ")
      then (p, Normal)
      else if String.eqb key "Enter" || String.eqb key " " then
        if negb (isOpen s) then (open d p, Normal)
        else if 0 <=? focusedIndex s
             then selectOption d (options_at d s (focusedIndex s))
                    (focusedIndex s) p
             else (p, Normal)
      else if String.eqb key "Escape" then (close d p, Normal)
      else if String.eqb key "ArrowDown" then
        if negb (isOpen s) then (open d p, Normal)
        else (focusNextOption d p, Normal)
      else if String.eqb key "ArrowUp" then
        if negb (isOpen s) then (open d p, Normal)
        else (focusPreviousOption d p, Normal)
      else if String.eqb key "Home" then
        if isOpen s then (focusFirstOption d p, Normal) else (p, Normal)
      else if String.eqb key "End" then
        if isOpen s then (focusLastOption d p, Normal) else (p, Normal)
      else (p, Normal)
  end.

Definition destroy_effects (s : Dropdown) : Dropdown :=
  let s := remove_listeners s in
  let s := set_isOpen false s in
  set_dropdown (classList_remove "is-open" (dropdown s)) s.

Definition destroy (d : nat) (p : Page) : Page :=
  log_id "Dropdown destroyed:" d (update d destroy_effects p).

(** ** Construction *)

(** What the constructor finds under one [data-dropdown] element. *)
Record Markup : Type := mkMarkup {
  markup_dropdown : Element;
  markup_trigger : Element;
  markup_valueDisplay : Element;
  markup_textContent : string;
  markup_options : list Element
}.

(** [new Dropdown(element)]: the constructor followed by [init()]. *)
Definition new_Dropdown (m : Markup) : Dropdown :=
  mkDropdown (markup_dropdown m) (markup_trigger m)
    (classList_add "is-placeholder" (markup_valueDisplay m))
    (markup_options m)
    false Null Null (-1) (markup_textContent m)
    true true true true false.

(** The body of the [forEach] in [initDropdowns()]. *)
Definition init_one (p : Page) (m : Markup) : Page :=
  let d := length (instances p) in
  let p := mkPage (instances p ++ [new_Dropdown m]) (trace p) in
  let p := log_id "Dropdown initialized:" d p in
  update d (set_dropdownInstance true) p.

(** [initDropdowns()], over the elements that match [data-dropdown]. *)
Definition initDropdowns (ms : list Markup) : Page :=
  emit (ConsoleLogCount (length ms)) (foldl init_one (mkPage [] []) ms).

(** ** Events and calls *)

(** What the browser does with the completion of a listener. *)
Definition report (r : Page * completion) : Page :=
  match snd r with
  | Normal => fst r
  | Throw err => emit (Uncaught err) (fst r)
  end.

(** The document-level 'click' listeners, in the order they were added. *)
Definition document_click (target : node) (p : Page) : Page :=
  foldl
    (fun p j => match instances p !! j with
                | Some s => if on_document_click s
                            then handleClickOutside j target p
                            else p
                | None => p
                end)
    p (seq 0 (length (instances p))).

(** A click bubbles from its target to the document; the trigger and
    option listeners stop the propagation. *)
Definition click (target : node) (p : Page) : Page :=
  match target with
  | TriggerOf d =>
      match instances p !! d with
      | Some s => if on_trigger_click s then toggle d p
                  else document_click target p
      | None => document_click target p
      end
  | OptionOf d k =>
      match instances p !! d with
      | Some s =>
          match options s !! k with
          | Some _ => if on_option_click s
                      then report (selectOption d (Val (d, k)) (Z.of_nat k) p)
                      else document_click target p
          | None => document_click target p
          end
      | None => document_click target p
      end
  | _ => document_click target p
  end.

(** A 'keydown' whose target lies in the container of dropdown [d]. *)
Definition keydown (d : nat) (key : string) (p : Page) : Page :=
  match instances p !! d with
  | Some s => if on_keydown s then report (handleKeyboard d key p) else p
  | None => p
  end.

(** What can happen to a page: an event of the user, or a call of one of
    the public methods of an instance. *)
Inductive step : Type :=
| Click (target : node)
| KeyDown (d : nat) (key : string)
| CallOpen (d : nat)
| CallClose (d : nat)
| CallSelectOption (d : nat) (option : js optref) (index : Z)
| CallDestroy (d : nat).

(** An exception that leaves a called method is reported like one that
    leaves a listener. *)
Definition run_step (p : Page) (st : step) : Page :=
  match st with
  | Click t => click t p
  | KeyDown d key => keydown d key p
  | CallOpen d => open d p
  | CallClose d => close d p
  | CallSelectOption d o i => report (selectOption d o i p)
  | CallDestroy d => destroy d p
  end.

Definition run (p : Page) (sts : list step) : Page := foldl run_step p sts.

(** ** A sample page: the markup of the README, three times *)

Definition sample_option (value html : string) : Element :=
  mkElement {["dropdown-option"]}
    (<["role":="option"]> {["data-value":=value]}) html.

Definition sample_markup (id : string) : Markup :=
  mkMarkup
    (mkElement {["dropdown"]} (<["id":=id]> {["data-dropdown":=""]}) "")
    (mkElement {["dropdown-trigger"]}
       (<["aria-haspopup":="listbox"]> {["aria-expanded":="false"]}) "")
    (mkElement {["dropdown-value"]} ∅ "Select an option")
    "Select an option"
    [sample_option "option1" "Option 1";
     sample_option "option2" "Option 2";
     sample_option "option3" "Option 3"].

(** A dropdown whose menu has no option elements. *)
Definition empty_markup (id : string) : Markup :=
  mkMarkup
    (mkElement {["dropdown"]} (<["id":=id]> {["data-dropdown":=""]}) "")
    (mkElement {["dropdown-trigger"]}
       (<["aria-haspopup":="listbox"]> {["aria-expanded":="false"]}) "")
    (mkElement {["dropdown-value"]} ∅ "Select an option")
    "Select an option"
    [].

Definition sample_page : Page :=
  initDropdowns [sample_markup "a"; sample_markup "b"; sample_markup "c"].

Definition empty_page : Page := initDropdowns [empty_markup "e"].

(** The README markup without the class [dropdown] on the container. *)
Definition unclassed_markup (id : string) : Markup :=
  mkMarkup
    (mkElement ∅ (<["id":=id]> {["data-dropdown":=""]}) "")
    (markup_trigger (sample_markup id))
    (markup_valueDisplay (sample_markup id))
    (markup_textContent (sample_markup id))
    (markup_options (sample_markup id)).

(** ** Vocabulary of the statements *)

(** Where the four focus methods move the focused index. *)
Definition next_index (s : Dropdown) : Z :=
  Z.min (focusedIndex s + 1) (Z.of_nat (length (options s)) - 1).

Definition previous_index (s : Dropdown) : Z :=
  Z.max (focusedIndex s - 1) 0.

Definition first_index (s : Dropdown) : Z := 0.

Definition last_index (s : Dropdown) : Z :=
  Z.of_nat (length (options s)) - 1.

Definition focus_moves : list (Dropdown -> Z) :=
  [next_index; previous_index; first_index; last_index].

(** What [selectOption] does to an option element. *)
Definition selection_marks : list (Element -> Element) :=
  [unmark_selected; mark_selected].

(** [related R p q]: [q] has the instances of [p], each moved along [R],
    and the trace of [p] extended by outputs whose observations are so
    too. *)
Definition related (R : Dropdown -> Dropdown -> Prop) (p q : Page) : Prop :=
  Forall2 R (instances p) (instances q)
  /\ exists new, trace q = trace p ++ new
                 /\ Forall (fun e => Forall2 R (instances p) (snd e)) new.

(** Any two open instances are the same instance. *)
Definition at_most_one_open (l : list Dropdown) : Prop :=
  forall i j si sj,
    l !! i = Some si -> l !! j = Some sj ->
    isOpen si = true -> isOpen sj = true -> i = j.

(** What the broadcast of [open()] relies on: the container carries the
    class [dropdown], [initDropdowns] has stored the instance on it, and an
    open instance carries the class [is-open]. *)
Definition broadcast_reaches (s : Dropdown) : Prop :=
  classList_contains "dropdown" (dropdown s) = true
  /\ dropdownInstance s = true
  /\ (isOpen s = true -> classList_contains "is-open" (dropdown s) = true).

(** A change of one instance that opens nothing. *)
Definition closes (s s' : Dropdown) : Prop :=
  (broadcast_reaches s -> broadcast_reaches s')
  /\ (isOpen s' = true -> isOpen s = true).

(** [shrinks p q]: [q] comes from [p] by closing instances only. *)
Definition shrinks : Page -> Page -> Prop := related closes.

(** The invariant: every instance is within reach of the broadcast, at
    most one is open, and at most one was open at every output so far. *)
Definition exclusive (p : Page) : Prop :=
  Forall broadcast_reaches (instances p)
  /\ at_most_one_open (instances p)
  /\ Forall (fun e => at_most_one_open (snd e)) (trace p).

(** The steps that reach a call of [selectOption]: a click on an option
    element, Enter or Space on an open instance with a focused index, and
    the call itself. *)
Definition reaches_select (st : step) (p : Page) : bool :=
  match st with
  | Click (OptionOf d k) =>
      match instances p !! d with
      | Some s => match options s !! k with
                  | Some _ => on_option_click s
                  | None => false
                  end
      | None => false
      end
  | KeyDown d key =>
      match instances p !! d with
      | Some s => on_keydown s && isOpen s
                  && (String.eqb key "Enter" || String.eqb key " ")
                  && (0 <=? focusedIndex s)
      | None => false
      end
  | CallSelectOption _ _ _ => true
  | _ => false
  end.

(** The calls of [destroy()]. *)
Definition is_destroy (st : step) : bool :=
  match st with
  | CallDestroy _ => true
  | _ => false
  end.

Definition all_closed (l : list Dropdown) : Prop :=
  Forall (fun s => isOpen s = false) l.

(** The state in which [initDropdowns] leaves the page: every instance is
    closed and within reach of the broadcast. *)
Definition initial (p : Page) : Prop :=
  Forall broadcast_reaches (instances p)
  /\ all_closed (instances p)
  /\ Forall (fun e => all_closed (snd e)) (trace p).

(** The container carries the class [dropdown], as in the README. *)
Definition dropdown_class (m : Markup) : Prop :=
  classList_contains "dropdown" (markup_dropdown m) = true.

Definition sample_markups : list Markup :=
  [sample_markup "a"; sample_markup "b"; sample_markup "c"].

(** Open the first dropdown, then the second, move down twice, select,
    open the third. *)
Definition sample_steps : list step :=
  [Click (TriggerOf 0); Click (TriggerOf 1); KeyDown 1 "ArrowDown";
   KeyDown 1 "ArrowDown"; KeyDown 1 "Enter"; Click (TriggerOf 2)].

(** A small page built by hand: one instance with three options, the
    third one selected. *)
Definition bare_element (html : string) : Element := mkElement ∅ ∅ html.

Definition bare_dropdown (open : bool) (focused : Z) : Dropdown :=
  mkDropdown (mkElement {["dropdown"]} ∅ "") (bare_element "")
    (bare_element "Three")
    [bare_element "One"; bare_element "Two"; bare_element "Three"]
    open Undefined (Val (0%nat, 2%nat)) focused "Select"
    true true true true true.

Definition bare_page (open : bool) (focused : Z) : Page :=
  mkPage [bare_dropdown open focused] [].

(** An element whose classes or ARIA state changed, nothing else. *)
Definition restyled (e e1 : Element) : Prop :=
  innerHTML e1 = innerHTML e /\ dataset_value e1 = dataset_value e.

(** The selection notifications of a trace, in order: target and detail of
    every dispatched event. *)
Definition notification (e : output * list Dropdown) : list (nat * Detail) :=
  match fst e with
  | DispatchEvent t _ detail => [(t, detail)]
  | _ => []
  end.

Definition notifications (tr : list (output * list Dropdown))
  : list (nat * Detail) :=
  flat_map notification tr.

(** What an observer of the selection notifications sees of instance [d]
    when each of them is dispatched: open or closed, the focused index,
    the selected value and the HTML of the value display. *)
Definition seen_at_notifications (d : nat) (tr : list (output * list Dropdown))
  : list (bool * Z * js string * string) :=
  flat_map
    (fun e => match fst e, snd e !! d with
              | DispatchEvent _ _ _, Some s =>
                  [(isOpen s, focusedIndex s, selectedValue s,
                    innerHTML (valueDisplay s))]
              | _, _ => []
              end)
    tr.

(** Open the first dropdown, move to its first option, destroy it. *)
Definition focus_then_destroy : list step :=
  [Click (TriggerOf 0); KeyDown 0 "ArrowDown"; CallDestroy 0].

(** Open or closed, the focused index and which options carry the
    keyboard highlight. *)
Definition focus_view (s : Dropdown) : bool * Z * list bool :=
  (isOpen s, focusedIndex s, map (classList_contains "is-focused") (options s)).

(** A closed instance has no focused index.  [close()] establishes it and
    only [destroy()], which clears [isOpen] alone, can break it. *)
Definition unfocused_when_closed (s : Dropdown) : Prop :=
  isOpen s = false -> focusedIndex s = -1.

(** The selection and the number of options are the same. *)
Definition same_selection (s s' : Dropdown) : Prop :=
  selectedOption s' = selectedOption s
  /\ selectedValue s' = selectedValue s
  /\ length (options s') = length (options s).

Definition navigation_keys : list string :=
  ["ArrowDown"; "ArrowUp"; "Home"; "End"].

(** The focused index the spec gives for a navigation key. *)
Definition focus_after (last : Z) (focused : Z) (key : string) : Z :=
  if String.eqb key "ArrowDown" then Z.min (focused + 1) last
  else if String.eqb key "ArrowUp" then Z.max (focused - 1) 0
  else if String.eqb key "Home" then 0
  else last.

Definition lastIndex (s : Dropdown) : Z := Z.of_nat (length (options s)) - 1.

(** Key presses handled one after the other by instance [d]. *)
Definition press (d : nat) (p : Page) (keys : list string) : Page :=
  foldl (fun p key => fst (handleKeyboard d key p)) p keys.

(** Whether the focused index is an index of the options. *)
Definition focus_in_range (s : Dropdown) : bool :=
  (0 <=? focusedIndex s) && (focusedIndex s <=? lastIndex s).

(** [this.selectOption(this.options[i], i)], the way both callers in the
    source invoke it. *)
Definition selectOption_at (d : nat) (i : Z) (p : Page) : Page * completion :=
  match instances p !! d with
  | Some s => selectOption d (options_at d s i) i p
  | None => (p, Normal)
  end.

(** The selection of an instance and the [aria-selected] attribute of each
    of its options. *)
Definition selection_view (s : Dropdown)
  : js optref * js string * list (option string) :=
  (selectedOption s, selectedValue s,
   map (getAttribute "aria-selected") (options s)).

(** The state of an instance and the [aria-expanded] attribute of its
    trigger. *)
Definition state_view (s : Dropdown)
  : bool * Z * js optref * js string * option string :=
  (isOpen s, focusedIndex s, selectedOption s, selectedValue s,
   getAttribute "aria-expanded" (trigger s)).

(** A change of one instance that preserves [P]. *)
Definition keeps (P : Dropdown -> Prop) (s s' : Dropdown) : Prop :=
  P s -> P s'.

(** The focused index of an instance with options is none or an index of
    its options. *)
Definition focus_valid (s : Dropdown) : Prop :=
  (0 < length (options s))%nat -> -1 <= focusedIndex s <= lastIndex s.

(** The trigger says expanded exactly when the instance is open. *)
Definition expanded_in_sync (s : Dropdown) : Prop :=
  getAttribute "aria-expanded" (trigger s)
  = Some (if isOpen s then "true" else "false").

(** Whether the broadcast of [open()] of instance [d] closes instance [j]:
    its container matches [.dropdown.is-open], it is another one, its
    instance is stored on it, and it is open. *)
Definition closed_by_broadcast (d j : nat) (s : Dropdown) : bool :=
  negb (Nat.eqb j d) && matches_dropdown_is_open s && dropdownInstance s
  && isOpen s.

(** Whether a click that reaches the document closes instance [j]: its
    document listener is there, it is open and does not contain the
    target. *)
Definition closed_by_click (j : nat) (target : node) (s : Dropdown) : bool :=
  on_document_click s && isOpen s && negb (contains j target).

(** The keys [handleKeyboard] has a case for. *)
Definition handled_keys : list string :=
  ["Enter"; " "; "Escape"; "ArrowDown"; "ArrowUp"; "Home"; "End"].

(** The option carries the keyboard highlight. *)
Definition highlighted (e : Element) : bool :=
  classList_contains "is-focused" e.

(** A highlighted option belongs to an open instance and sits at its
    focused index. *)
Definition highlight_at_focus (s : Dropdown) : Prop :=
  forall k e, options s !! k = Some e -> highlighted e = true ->
              isOpen s = true /\ focusedIndex s = Z.of_nat k.

(** The option is marked as the selected one, for the eye and for
    assistive technology. *)
Definition marked (e : Element) : Prop :=
  classList_contains "is-selected" e = true
  /\ getAttribute "aria-selected" e = Some "true".

(** The option is marked in neither way. *)
Definition unmarked (e : Element) : Prop :=
  classList_contains "is-selected" e = false
  /\ getAttribute "aria-selected" e ≠ Some "true".

(** The marks of the options of instance [d] agree with its selection:
    the selected option is marked and every other one unmarked. *)
Definition selection_in_sync (d : nat) (s : Dropdown) : Prop :=
  forall k e, options s !! k = Some e ->
              (selectedOption s = Val (d, k) -> marked e)
              /\ (selectedOption s ≠ Val (d, k) -> unmarked e).

(** A small page of two instances, the first one open. *)
Definition bare_pair : Page :=
  mkPage
    [mkDropdown (mkElement {["dropdown"; "is-open"]} ∅ "") (bare_element "")
       (bare_element "Select") [bare_element "One"; bare_element "Two"]
       true Null Null 1 "Select" true true true true true;
     mkDropdown (mkElement {["dropdown"]} ∅ "") (bare_element "")
       (bare_element "Select") [bare_element "One"; bare_element "Two"]
       false Null Null (-1) "Select" true true true true true]
    [].

(** The options before [selectOption] marks the new one. *)
Definition previous_unmarked (d : nat) (s : Dropdown) : list Element :=
  match selectedOption s with
  | Val (d', k0) =>
      if Nat.eqb d' d then alter unmark_selected k0 (options s)
      else options s
  | _ => options s
  end.

(** What the trigger displays. *)
Definition same_display (s s' : Dropdown) : Prop :=
  valueDisplay s' = valueDisplay s /\ placeholder s' = placeholder s.

(** The options of an instance, as far as value and label go. *)
Definition same_options (s s' : Dropdown) : Prop :=
  Forall2 restyled (options s) (options s').

(** ** Basic facts about pages *)

(** Splits a conjunction of closed equations and evaluates each side. *)
Ltac evaluate :=
  repeat match goal with
         | |- _ /\ _ => split
         | |- let _ := _ in _ => intro
         end;
  vm_compute; reflexivity.

Lemma instances_emit o p : instances (emit o p) = instances p.
Proof. reflexivity. Qed.

Lemma trace_emit o p : trace (emit o p) = trace p ++ [(o, instances p)].
Proof. reflexivity. Qed.

Lemma instances_update d f p :
  instances (update d f p) = alter f d (instances p).
Proof. reflexivity. Qed.

Lemma trace_update d f p : trace (update d f p) = trace p.
Proof. reflexivity. Qed.

Lemma lookup_update_eq d f p s :
  instances p !! d = Some s -> instances (update d f p) !! d = Some (f s).
Proof. intros H. rewrite instances_update, list_lookup_alter_eq, H. done. Qed.

Lemma lookup_update_ne d j f p :
  d ≠ j -> instances (update d f p) !! j = instances p !! j.
Proof. intros H. rewrite instances_update. by apply list_lookup_alter_ne. Qed.

Lemma lookup_update d j f p s' :
  instances (update d f p) !! j = Some s' ->
  exists s, instances p !! j = Some s /\ (s' = s \/ (j = d /\ s' = f s)).
Proof.
  destruct (decide (d = j)) as [->|Hne].
  - rewrite instances_update, list_lookup_alter_eq.
    destruct (instances p !! j) as [s|]; simpl; [|done].
    intros [= <-]. eauto.
  - rewrite lookup_update_ne by done. eauto.
Qed.

Lemma length_update d f p :
  length (instances (update d f p)) = length (instances p).
Proof. rewrite instances_update. apply length_alter. Qed.

Lemma instances_log_id msg d p : instances (log_id msg d p) = instances p.
Proof. unfold log_id. by destruct (instances p !! d). Qed.

Lemma trace_log_id msg d p :
  exists new, trace (log_id msg d p) = trace p ++ new
              /\ Forall (fun e => snd e = instances p) new.
Proof.
  unfold log_id. destruct (instances p !! d).
  - eexists. split; [apply trace_emit|]. by repeat constructor.
  - exists []. split; [by rewrite app_nil_r|constructor].
Qed.

Lemma update_update d f g p :
  update d f (update d g p) = update d (fun s => f (g s)) p.
Proof.
  unfold update; simpl. f_equal. apply list_alter_alter_eq.
Qed.

Lemma close_lookup_ne d j p :
  d ≠ j -> instances (close d p) !! j = instances p !! j.
Proof.
  intros Hne. unfold close. destruct (instances p !! d) as [s|]; [|done].
  destruct (negb (isOpen s)); [done|].
  by rewrite instances_log_id, lookup_update_ne.
Qed.

Lemma close_lookup_eq d p s :
  instances p !! d = Some s ->
  instances (close d p) !! d
  = Some (if isOpen s then close_effects s else s).
Proof.
  intros Hd. unfold close. rewrite Hd.
  destruct (isOpen s); simpl; [|done].
  rewrite instances_log_id. by apply lookup_update_eq.
Qed.

Lemma close_other_self d p j :
  instances (close_other d p j) !! d = instances p !! d.
Proof.
  unfold close_other. destruct (Nat.eqb_spec j d); simpl; [done|].
  destruct (instances p !! j) as [s|]; [|done].
  destruct (dropdownInstance s); [|done].
  by apply close_lookup_ne.
Qed.

Lemma close_others_self d p :
  instances (close_others d p) !! d = instances p !! d.
Proof.
  unfold close_others.
  generalize (querySelectorAll_dropdown_is_open p) as l. intros l.
  revert p. induction l as [|j l IH]; intros p; simpl; [done|].
  by rewrite IH, close_other_self.
Qed.

(** ** Lifting a relation on instances to the methods

    Every method is a sequence of assignments to instances and of outputs:
    when each assignment moves its instance along [R], the method relates
    the page before to the page after. *)

Section Lift.
Variable R : Dropdown -> Dropdown -> Prop.
Hypothesis R_refl : forall s, R s s.
Hypothesis R_trans : forall a b c, R a b -> R b c -> R a c.

Lemma Forall2_R_refl l : Forall2 R l l.
Proof. apply Forall_Forall2_diag, Forall_forall. auto. Qed.

Lemma Forall2_R_trans l k m :
  Forall2 R l k -> Forall2 R k m -> Forall2 R l m.
Proof. apply Forall2_trans. exact R_trans. Qed.

Lemma related_refl p : related R p p.
Proof.
  split; [apply Forall2_R_refl|].
  exists []. split; [by rewrite app_nil_r|constructor].
Qed.

Lemma related_trans p q r : related R p q -> related R q r -> related R p r.
Proof.
  intros [Hpq (n1 & Ht1 & Hn1)] [Hqr (n2 & Ht2 & Hn2)].
  split; [by eapply Forall2_R_trans|].
  exists (n1 ++ n2). split.
  - by rewrite Ht2, Ht1, app_assoc.
  - apply Forall_app. split; [done|].
    eapply Forall_impl; [exact Hn2|].
    intros e He. by eapply Forall2_R_trans.
Qed.

Lemma related_emit o p : related R p (emit o p).
Proof.
  split; [apply Forall2_R_refl|].
  eexists. split; [apply trace_emit|].
  repeat constructor. apply Forall2_R_refl.
Qed.

Lemma related_log_id msg d p : related R p (log_id msg d p).
Proof.
  unfold log_id. destruct (instances p !! d);
    [apply related_emit|apply related_refl].
Qed.

(** An assignment to instance [d] that moves it along [R]. *)
Lemma related_update d f p :
  (forall s, instances p !! d = Some s -> R s (f s)) ->
  related R p (update d f p).
Proof.
  intros Hf. split.
  - rewrite instances_update. apply Forall2_alter_r; [apply Forall2_R_refl|].
    intros x y Hx Hy _. assert (x = y) as -> by congruence. auto.
  - exists []. split; [by rewrite trace_update, app_nil_r|constructor].
Qed.

Lemma related_foldl {A} (f : Page -> A -> Page) (l : list A) :
  (forall p a, related R p (f p a)) -> forall p, related R p (foldl f p l).
Proof.
  intros Hf. induction l as [|a l IH]; intros p; simpl.
  - apply related_refl.
  - eapply related_trans; [apply Hf|apply IH].
Qed.

Hypothesis R_close :
  forall s, isOpen s = true -> R s (close_effects s).
Hypothesis R_open :
  forall d s, isOpen s = false -> R s (open_effects d s).
Hypothesis R_focus :
  forall g s, In g focus_moves -> isOpen s = true ->
              R s (updateFocusedOption_effects (set_focusedIndex (g s) s)).
Hypothesis R_destroy : forall s, R s (destroy_effects s).
Hypothesis R_option :
  forall f k s, In f selection_marks ->
                R s (set_options (alter f k (options s)) s).
Hypothesis R_selectedOption : forall o s, R s (set_selectedOption o s).
Hypothesis R_selectedValue : forall v s, R s (set_selectedValue v s).
Hypothesis R_show : forall h s, R s (show_selection h s).

Lemma related_close d p : related R p (close d p).
Proof.
  unfold close. destruct (instances p !! d) as [s|] eqn:Hd;
    [|apply related_refl].
  destruct (isOpen s) eqn:Ho; simpl; [|apply related_refl].
  eapply related_trans; [|apply related_log_id].
  apply related_update. intros s' Hs'.
  assert (s' = s) as -> by congruence. auto.
Qed.

Lemma related_close_other d p j : related R p (close_other d p j).
Proof.
  unfold close_other. destruct (negb (j =? d)%nat); [|apply related_refl].
  destruct (instances p !! j) as [s|]; [|apply related_refl].
  destruct (dropdownInstance s); [apply related_close|apply related_refl].
Qed.

Lemma related_close_others d p : related R p (close_others d p).
Proof. unfold close_others. apply related_foldl, related_close_other. Qed.

Lemma related_handleClickOutside d t p :
  related R p (handleClickOutside d t p).
Proof.
  unfold handleClickOutside. destruct (instances p !! d) as [s|];
    [|apply related_refl].
  destruct (negb (isOpen s)); [apply related_refl|].
  destruct (negb (contains d t));
    [apply related_close|apply related_refl].
Qed.

Lemma related_document_click t p : related R p (document_click t p).
Proof.
  unfold document_click. apply related_foldl. intros q j.
  destruct (instances q !! j) as [s|]; [|apply related_refl].
  destruct (on_document_click s);
    [apply related_handleClickOutside|apply related_refl].
Qed.

Lemma related_destroy d p : related R p (destroy d p).
Proof.
  unfold destroy. eapply related_trans; [|apply related_log_id].
  apply related_update. auto.
Qed.

Lemma related_open d p : related R p (open d p).
Proof.
  unfold open. destruct (instances p !! d) as [s|] eqn:Hd;
    [|apply related_refl].
  destruct (isOpen s) eqn:Ho; [apply related_refl|].
  eapply related_trans; [apply related_close_others|].
  eapply related_trans; [|apply related_log_id].
  apply related_update. intros s' Hs'.
  rewrite close_others_self, Hd in Hs'.
  assert (s' = s) as -> by congruence. auto.
Qed.

(** Moving the keyboard focus of an open instance. *)
Lemma related_focus d (g : Dropdown -> Z) p s :
  In g focus_moves -> instances p !! d = Some s -> isOpen s = true ->
  related R p
    (updateFocusedOption d
       (update d (fun s => set_focusedIndex (g s) s) p)).
Proof.
  intros Hg Hd Ho. unfold updateFocusedOption. rewrite update_update.
  apply related_update. intros s' Hs'.
  assert (s' = s) as -> by congruence. auto.
Qed.

Lemma related_update_option r f p :
  In f selection_marks -> related R p (update_option r f p).
Proof. intros Hf. unfold update_option. apply related_update. auto. Qed.

Lemma related_selectOption d o i p :
  related R p (fst (selectOption d o i p)).
Proof.
  unfold selectOption. destruct (instances p !! d) as [s|];
    [|apply related_refl].
  set (p1 := match selectedOption s with
             | Val prev => update_option prev unmark_selected p
             | _ => p
             end).
  assert (related R p p1) as H1.
  { unfold p1. destruct (selectedOption s); try apply related_refl.
    apply related_update_option. simpl. auto. }
  assert (related R p (update d (set_selectedOption o) p1)) as H2.
  { eapply related_trans; [exact H1|]. apply related_update. auto. }
  destruct o as [| |r]; cbn [fst]; try exact H2.
  destruct (deref r _) as [el|]; cbn [fst]; [|exact H2].
  unfold log_selected.
  match goal with
  | |- context [instances ?q !! d] =>
      destruct (instances q !! d);
      [eapply related_trans; [|apply related_emit]|]
  end.
  all: eapply related_trans; [|apply related_emit].
  all: eapply related_trans; [|apply related_close].
  all: eapply related_trans; [|apply related_update; auto].
  all: eapply related_trans;
    [|apply related_update_option; simpl; auto].
  all: eapply related_trans; [|apply related_update; auto].
  all: exact H2.
Qed.
End Lift.

(** ** Class lists *)

Lemma classList_contains_remove_ne c c' e :
  c ≠ c' ->
  classList_contains c (classList_remove c' e) = classList_contains c e.
Proof.
  intros Hne. unfold classList_contains, classList_remove; simpl.
  apply bool_decide_ext. rewrite elem_of_difference, elem_of_singleton.
  split; [by intros [? _]|by intros ?; split].
Qed.

Lemma classList_contains_remove_eq c e :
  classList_contains c (classList_remove c e) = false.
Proof.
  unfold classList_contains, classList_remove; simpl.
  apply bool_decide_eq_false.
  rewrite elem_of_difference, elem_of_singleton. by intros [_ H].
Qed.

Lemma classList_contains_add_eq c e :
  classList_contains c (classList_add c e) = true.
Proof.
  unfold classList_contains, classList_add; simpl.
  apply bool_decide_eq_true. by apply elem_of_union_l, elem_of_singleton.
Qed.

Lemma classList_contains_add_ne c c' e :
  c ≠ c' ->
  classList_contains c (classList_add c' e) = classList_contains c e.
Proof.
  intros Hne. unfold classList_contains, classList_add; simpl.
  apply bool_decide_ext. rewrite elem_of_union, elem_of_singleton.
  split; [by intros [?|?]|by right].
Qed.

(** ** Mutual exclusion *)

Lemma closes_refl s : closes s s.
Proof. by split. Qed.

Lemma closes_trans a b c : closes a b -> closes b c -> closes a c.
Proof. intros [? ?] [? ?]. split; auto. Qed.

Lemma closes_close s : isOpen s = true -> closes s (close_effects s).
Proof.
  intros _. split; [|done].
  intros (Hd & Hi & _). repeat split; simpl; [|done|done].
  by rewrite classList_contains_remove_ne.
Qed.

Lemma closes_focus (g : Dropdown -> Z) s :
  In g focus_moves -> isOpen s = true ->
  closes s (updateFocusedOption_effects (set_focusedIndex (g s) s)).
Proof.
  intros _ _. unfold updateFocusedOption_effects.
  destruct (_ && _); by split.
Qed.

Lemma closes_destroy s : closes s (destroy_effects s).
Proof.
  split; [|done].
  intros (Hd & Hi & _). repeat split; simpl; [|done|done].
  by rewrite classList_contains_remove_ne.
Qed.

Lemma closes_option f k s :
  In f selection_marks -> closes s (set_options (alter f k (options s)) s).
Proof. by split. Qed.

Lemma closes_selectedOption o s : closes s (set_selectedOption o s).
Proof. by split. Qed.

Lemma closes_selectedValue v s : closes s (set_selectedValue v s).
Proof. by split. Qed.

Lemma closes_show h s : closes s (show_selection h s).
Proof. by split. Qed.

Ltac closes_facts :=
  first [ exact closes_refl | exact closes_trans | exact closes_close
        | exact closes_focus | exact closes_destroy | exact closes_option
        | exact closes_selectedOption | exact closes_selectedValue
        | exact closes_show ].

Lemma shrinks_trans p q r : shrinks p q -> shrinks q r -> shrinks p r.
Proof. apply related_trans. exact closes_trans. Qed.

Lemma shrinks_close d p : shrinks p (close d p).
Proof. apply related_close; closes_facts. Qed.

Lemma shrinks_close_other d p j : shrinks p (close_other d p j).
Proof. apply related_close_other; closes_facts. Qed.

Lemma shrinks_close_others d p : shrinks p (close_others d p).
Proof. apply related_close_others; closes_facts. Qed.

Lemma shrinks_selectOption d o i p : shrinks p (fst (selectOption d o i p)).
Proof. apply related_selectOption; closes_facts. Qed.

Lemma shrinks_destroy d p : shrinks p (destroy d p).
Proof. apply related_destroy; closes_facts. Qed.

Lemma shrinks_focus d g p s :
  In g focus_moves -> instances p !! d = Some s -> isOpen s = true ->
  shrinks p
    (updateFocusedOption d (update d (fun s => set_focusedIndex (g s) s) p)).
Proof. apply related_focus; closes_facts. Qed.

Lemma shrinks_emit o p : shrinks p (emit o p).
Proof. apply related_emit; closes_facts. Qed.

Lemma at_most_one_open_closes l l' :
  Forall2 closes l l' -> at_most_one_open l -> at_most_one_open l'.
Proof.
  intros Hll Hl i j si sj Hi Hj Hoi Hoj.
  destruct (Forall2_lookup_r _ _ _ _ _ Hll Hi) as (ti & Hti & _ & Hci).
  destruct (Forall2_lookup_r _ _ _ _ _ Hll Hj) as (tj & Htj & _ & Hcj).
  eapply Hl; eauto.
Qed.

Lemma broadcast_reaches_closes l l' :
  Forall2 closes l l' -> Forall broadcast_reaches l ->
  Forall broadcast_reaches l'.
Proof.
  intros Hll Hl. apply Forall_lookup. intros i s' Hi.
  destruct (Forall2_lookup_r _ _ _ _ _ Hll Hi) as (s & Hs & Hc & _).
  apply Hc. eapply Forall_lookup_1; eauto.
Qed.

Lemma shrinks_closed p q j s s' :
  shrinks p q -> instances p !! j = Some s -> instances q !! j = Some s' ->
  isOpen s = false -> isOpen s' = false.
Proof.
  intros [Hpq _] Hs Hs' Ho.
  destruct (Forall2_lookup_lr _ _ _ _ _ _ Hpq Hs Hs') as [_ Hc].
  destruct (isOpen s'); [|done]. specialize (Hc eq_refl). congruence.
Qed.

Lemma exclusive_shrinks p q : exclusive p -> shrinks p q -> exclusive q.
Proof.
  intros (Hb & Ha & Ht) [Hpq (new & Hnew & Hobs)]. split; [|split].
  - exact (broadcast_reaches_closes _ _ Hpq Hb).
  - exact (at_most_one_open_closes _ _ Hpq Ha).
  - rewrite Hnew. apply Forall_app. split; [done|].
    eapply Forall_impl; [exact Hobs|]. intros e He.
    exact (at_most_one_open_closes _ _ He Ha).
Qed.

Lemma close_other_closed d q j s :
  Forall broadcast_reaches (instances q) -> j ≠ d ->
  instances (close_other d q j) !! j = Some s -> isOpen s = false.
Proof.
  intros Hb Hne. unfold close_other.
  destruct (Nat.eqb_spec j d) as [|_]; [done|]. simpl.
  destruct (instances q !! j) as [s0|] eqn:Hj; [|by rewrite Hj].
  destruct (Forall_lookup_1 _ _ _ _ Hb Hj) as (_ & -> & _).
  rewrite (close_lookup_eq _ _ _ Hj). intros [= <-].
  by destruct (isOpen s0) eqn:Ho.
Qed.

Lemma foldl_shrinks d l q : shrinks q (foldl (close_other d) q l).
Proof.
  apply related_foldl; try closes_facts.
  intros. apply shrinks_close_other.
Qed.

Lemma foldl_close_other_closed d l :
  forall q, Forall broadcast_reaches (instances q) ->
  forall j s, In j l -> j ≠ d ->
    instances (foldl (close_other d) q l) !! j = Some s ->
    isOpen s = false.
Proof.
  induction l as [|a l IH]; intros q Hb j s Hin Hne Hs; [done|].
  simpl in Hs.
  assert (Forall broadcast_reaches (instances (close_other d q a))) as Hb'.
  { eapply broadcast_reaches_closes; [|exact Hb].
    apply (shrinks_close_other d q a). }
  destruct (decide (j = a)) as [->|Hja].
  - destruct (instances (close_other d q a) !! a) as [s0|] eqn:Ha.
    + eapply shrinks_closed; [apply foldl_shrinks|exact Ha|exact Hs|].
      exact (close_other_closed d q a s0 Hb Hne Ha).
    + pose proof (foldl_shrinks d l (close_other d q a)) as [HF _].
      destruct (Forall2_lookup_r _ _ _ _ _ HF Hs) as (? & ? & _). congruence.
  - destruct Hin as [->|Hin]; [done|]. by eapply IH.
Qed.

(** After the broadcast of [open()] of instance [d], no other instance is
    open. *)
Lemma close_others_closed d p j s :
  Forall broadcast_reaches (instances p) -> j ≠ d ->
  instances (close_others d p) !! j = Some s -> isOpen s = false.
Proof.
  intros Hb Hne Hs.
  pose proof (shrinks_close_others d p) as Hsh.
  destruct Hsh as [HF Htr].
  destruct (Forall2_lookup_r _ _ _ _ _ HF Hs) as (s0 & Hs0 & _ & Hc).
  destruct (isOpen s0) eqn:Ho0.
  - unfold close_others in Hs.
    eapply foldl_close_other_closed; [exact Hb| |exact Hne|exact Hs].
    unfold querySelectorAll_dropdown_is_open.
    apply filter_In. split.
    + apply in_seq. apply lookup_lt_Some in Hs0. lia.
    + rewrite Hs0. unfold matches_dropdown_is_open.
      destruct (Forall_lookup_1 _ _ _ _ Hb Hs0) as (-> & _ & ->); done.
  - destruct (isOpen s); [|done]. specialize (Hc eq_refl). congruence.
Qed.

Lemma broadcast_reaches_open d s :
  broadcast_reaches s -> broadcast_reaches (open_effects d s).
Proof.
  intros (Hd & Hi & _). repeat split; simpl; [|done|].
  - by rewrite classList_contains_add_ne.
  - intros _. apply classList_contains_add_eq.
Qed.

Lemma exclusive_open d p : exclusive p -> exclusive (open d p).
Proof.
  intros Hp. unfold open.
  destruct (instances p !! d) as [s|] eqn:Hd; [|done].
  destruct (isOpen s) eqn:Ho; [done|].
  pose proof (exclusive_shrinks _ _ Hp (shrinks_close_others d p))
    as (Hb & Ha & Ht).
  pose proof (close_others_closed d p) as Hcl.
  destruct Hp as (Hbp & _ & _).
  set (q := close_others d p) in *.
  assert (exclusive (update d (open_effects d) q)) as Hq.
  { repeat split.
    - rewrite instances_update. apply Forall_lookup. intros i x Hx.
      destruct (decide (d = i)) as [->|Hdi].
      + rewrite list_lookup_alter_eq in Hx.
        destruct (instances q !! i) as [y|] eqn:Hy; [|done].
        injection Hx as <-. apply broadcast_reaches_open.
        eapply Forall_lookup_1; eauto.
      + rewrite list_lookup_alter_ne in Hx by done.
        eapply Forall_lookup_1; eauto.
    - intros i j si sj Hi Hj Hoi Hoj.
      assert (forall k sk, instances (update d (open_effects d) q) !! k
                           = Some sk -> isOpen sk = true -> k = d) as Hk.
      { intros k sk Hsk Hok. destruct (decide (k = d)) as [|Hkd]; [done|].
        rewrite lookup_update_ne in Hsk by done.
        rewrite (Hcl k sk Hbp Hkd Hsk) in Hok. done. }
      rewrite (Hk i si Hi Hoi), (Hk j sj Hj Hoj). done.
    - by rewrite trace_update. }
  eapply exclusive_shrinks; [exact Hq|].
  apply related_log_id; closes_facts.
Qed.

(** ** Page invariants through the dispatcher *)

Lemma reaches_select_spec st p :
  reaches_select st p = true ->
  exists d o i, run_step p st = report (selectOption d o i p).
Proof.
  destruct st as [t|d key|d|d|d o i|d]; simpl; try done.
  - destruct t as [d|d k|d|]; try done. unfold click.
    destruct (instances p !! d) as [s|]; [|done].
    destruct (options s !! k); [|done]. intros ->. eauto.
  - unfold keydown, handleKeyboard.
    destruct (instances p !! d) as [s|] eqn:Hd; [|done].
    destruct (on_keydown s); [|done].
    destruct (isOpen s); [|done]. cbn [andb negb].
    destruct (String.eqb key "Enter" || String.eqb key " "); [|done].
    destruct (0 <=? focusedIndex s); [|done]. intros _. eauto.
  - eauto.
Qed.

Section Dispatch.
Variable I : Page -> Prop.
Hypothesis I_open : forall d p, I p -> I (open d p).
Hypothesis I_close : forall d p, I p -> I (close d p).
Hypothesis I_focus :
  forall d (g : Dropdown -> Z) p s,
    In g focus_moves ->
    I p -> instances p !! d = Some s -> isOpen s = true ->
    I (updateFocusedOption d
         (update d (fun s => set_focusedIndex (g s) s) p)).
Hypothesis I_emit : forall err p, I p -> I (emit (Uncaught err) p).

Lemma I_toggle d p : I p -> I (toggle d p).
Proof.
  intros Hp. unfold toggle. destruct (instances p !! d) as [s|]; [|done].
  destruct (isOpen s); auto.
Qed.

Lemma I_handleClickOutside d t p : I p -> I (handleClickOutside d t p).
Proof.
  intros Hp. unfold handleClickOutside.
  destruct (instances p !! d) as [s|]; [|done].
  destruct (negb (isOpen s)); [done|].
  destruct (negb (contains d t)); auto.
Qed.

Lemma I_document_click t p : I p -> I (document_click t p).
Proof.
  unfold document_click.
  generalize (seq 0 (length (instances p))) as l. intros l.
  revert p. induction l as [|j l IH]; intros p Hp; simpl; [done|].
  apply IH. destruct (instances p !! j) as [s|]; [|done].
  destruct (on_document_click s); [|done].
  by apply I_handleClickOutside.
Qed.

Lemma I_report r : I (fst r) -> I (report r).
Proof. unfold report. destruct (snd r); auto. Qed.

Lemma I_click t p :
  (reaches_select (Click t) p = true ->
   forall d o i, I (fst (selectOption d o i p))) ->
  I p -> I (click t p).
Proof.
  intros Hsel Hp. unfold click.
  destruct t as [d|d k|d|]; try by apply I_document_click.
  - destruct (instances p !! d) as [s|]; [|by apply I_document_click].
    destruct (on_trigger_click s);
      [by apply I_toggle|by apply I_document_click].
  - simpl in Hsel.
    destruct (instances p !! d) as [s|]; [|by apply I_document_click].
    destruct (options s !! k); [|by apply I_document_click].
    destruct (on_option_click s); [|by apply I_document_click].
    apply I_report. by apply Hsel.
Qed.

Lemma I_handleKeyboard d key p s :
  instances p !! d = Some s ->
  (isOpen s && (String.eqb key "Enter" || String.eqb key " ")
   && (0 <=? focusedIndex s) = true ->
   forall d o i, I (fst (selectOption d o i p))) ->
  I p -> I (fst (handleKeyboard d key p)).
Proof.
  intros Hd Hsel Hp. unfold handleKeyboard. rewrite Hd.
  destruct (isOpen s) eqn:Ho; simpl in *.
  - destruct (_ || _); simpl in *.
    { destruct (0 <=? focusedIndex s); [by apply Hsel|done]. }
    destruct (String.eqb key "Escape"); [by apply I_close|].
    destruct (String.eqb key "ArrowDown").
    { apply (I_focus d next_index p s); simpl; auto. }
    destruct (String.eqb key "ArrowUp").
    { apply (I_focus d previous_index p s); simpl; auto. }
    destruct (String.eqb key "Home").
    { apply (I_focus d first_index p s); simpl; auto. }
    destruct (String.eqb key "End"); [|done].
    apply (I_focus d last_index p s); simpl; auto 6.
  - destruct (String.eqb key "Enter"); simpl; [by apply I_open|].
    destruct (String.eqb key " "); simpl; [by apply I_open|done].
Qed.

Lemma I_keydown d key p :
  (reaches_select (KeyDown d key) p = true ->
   forall d o i, I (fst (selectOption d o i p))) ->
  I p -> I (keydown d key p).
Proof.
  intros Hsel Hp. unfold keydown. simpl in Hsel.
  destruct (instances p !! d) as [s|] eqn:Hd; [|done].
  destruct (on_keydown s); [|done].
  apply I_report. eapply I_handleKeyboard; eauto.
Qed.

Lemma I_run_step st p :
  (reaches_select st p = true ->
   forall d o i, I (fst (selectOption d o i p))) ->
  (is_destroy st = true -> forall d, I (destroy d p)) ->
  I p -> I (run_step p st).
Proof.
  intros Hsel Hdes Hp. destruct st as [t|d key|d|d|d o i|d]; simpl.
  - by apply I_click.
  - by apply I_keydown.
  - by apply I_open.
  - by apply I_close.
  - apply I_report. by apply Hsel.
  - by apply Hdes.
Qed.

Lemma I_run sts :
  forall p,
    (forall q, I q -> forall d o i, I (fst (selectOption d o i q))) ->
    (forall st q, In st sts -> is_destroy st = true -> I q ->
                  forall d, I (destroy d q)) ->
    I p -> I (run p sts).
Proof.
  induction sts as [|st sts IH]; intros p Hsel Hdes Hp; simpl; [done|].
  apply IH; [done| |].
  - intros st' q Hin. apply (Hdes st' q). by right.
  - apply I_run_step; auto. intros Hst. apply (Hdes st p); [by left|done|done].
Qed.
End Dispatch.

(** ** The page after [initDropdowns] *)

Lemma all_closed_at_most_one l : all_closed l -> at_most_one_open l.
Proof.
  intros Hl i j si sj Hi _ Hoi _.
  rewrite (Forall_lookup_1 _ _ _ _ Hl Hi) in Hoi. done.
Qed.

Lemma instances_init_one p m :
  instances (init_one p m)
  = instances p ++ [set_dropdownInstance true (new_Dropdown m)].
Proof.
  unfold init_one. rewrite instances_update, instances_log_id. simpl.
  replace (length (instances p)) with (length (instances p) + 0)%nat by lia.
  by rewrite alter_app_r.
Qed.

Lemma trace_init_one p m :
  exists new,
    trace (init_one p m) = trace p ++ new
    /\ Forall (fun e => snd e = instances p ++ [new_Dropdown m]) new.
Proof.
  unfold init_one. rewrite trace_update.
  apply (trace_log_id _ _ (mkPage (instances p ++ [new_Dropdown m]) (trace p))).
Qed.

Lemma initial_init_one p m :
  dropdown_class m -> initial p -> initial (init_one p m).
Proof.
  intros Hm (Hb & Hc & Ht).
  destruct (trace_init_one p m) as (new & Hnew & Hobs).
  split; [|split].
  - rewrite instances_init_one. apply Forall_app. split; [done|].
    repeat constructor; simpl; [exact Hm|done].
  - rewrite instances_init_one. apply Forall_app. split; [done|].
    by repeat constructor.
  - rewrite Hnew. apply Forall_app. split; [done|].
    eapply Forall_impl; [exact Hobs|]. intros e ->.
    apply Forall_app. split; [done|]. by repeat constructor.
Qed.

Lemma initial_foldl ms :
  Forall dropdown_class ms ->
  forall p, initial p -> initial (foldl init_one p ms).
Proof.
  induction 1 as [|m ms Hm _ IH]; intros p Hp; simpl; [done|].
  apply IH. by apply initial_init_one.
Qed.

Lemma initial_initDropdowns ms :
  Forall dropdown_class ms -> initial (initDropdowns ms).
Proof.
  intros Hms. unfold initDropdowns.
  destruct (initial_foldl ms Hms (mkPage [] [])) as (Hb & Hc & Ht).
  { by repeat constructor. }
  split; [|split]; [done|done|].
  rewrite trace_emit. apply Forall_app. split; [done|]. by repeat constructor.
Qed.

Lemma initial_exclusive p : initial p -> exclusive p.
Proof.
  intros (Hb & Hc & Ht). split; [|split];
    [done|by apply all_closed_at_most_one|].
  eapply Forall_impl; [exact Ht|]. intros e. apply all_closed_at_most_one.
Qed.

Lemma exclusive_run sts p : exclusive p -> exclusive (run p sts).
Proof.
  intros Hp. apply I_run; try done.
  - apply exclusive_open.
  - intros d q Hq. exact (exclusive_shrinks _ _ Hq (shrinks_close d q)).
  - intros d g q s Hg Hq Hd Ho.
    exact (exclusive_shrinks _ _ Hq (shrinks_focus d g q s Hg Hd Ho)).
  - intros err q Hq.
    exact (exclusive_shrinks _ _ Hq (shrinks_emit (Uncaught err) q)).
  - intros q Hq d o i.
    exact (exclusive_shrinks _ _ Hq (shrinks_selectOption d o i q)).
  - intros st q _ _ Hq d.
    exact (exclusive_shrinks _ _ Hq (shrinks_destroy d q)).
Qed.

(** X22.  On a page set up by [initDropdowns] from containers that carry
    the class [dropdown], after every sequence of clicks, key presses and
    calls of open, close, selectOption and destroy, at most one instance is
    open, and at most one was open at every output produced on the way.
    When a closed instance [d] is opened, the broadcast runs first: it
    leaves [d] as it was and every other instance closed, and only then are
    the assignments of [open()] applied to [d]. *)
Theorem mutual_exclusion (ms : list Markup) (sts : list step) :
  Forall dropdown_class ms ->
  let p := run (initDropdowns ms) sts in
  at_most_one_open (instances p)
  /\ Forall (fun e => at_most_one_open (snd e)) (trace p)
  /\ forall d s,
       instances p !! d = Some s -> isOpen s = false ->
       let q := close_others d p in
       instances q !! d = Some s
       /\ (forall j sj, j ≠ d -> instances q !! j = Some sj ->
                        isOpen sj = false)
       /\ open d p = log_id "Dropdown opened:" d (update d (open_effects d) q).
Proof.
  intros Hms p.
  assert (exclusive p) as (Hb & Ha & Ht).
  { apply exclusive_run, initial_exclusive, initial_initDropdowns, Hms. }
  split; [done|]. split; [done|].
  intros d s Hd Ho q. split; [|split].
  - unfold q. by rewrite close_others_self.
  - intros j sj Hj Hsj. by eapply close_others_closed.
  - unfold open. by rewrite Hd, Ho.
Qed.

Lemma mutual_exclusion_witness :
  Forall dropdown_class sample_markups
  /\ at_most_one_open (instances (run (initDropdowns sample_markups)
                                    sample_steps)).
Proof.
  assert (Forall dropdown_class sample_markups) as H.
  { repeat constructor. }
  split; [exact H|].
  exact (proj1 (mutual_exclusion sample_markups sample_steps H)).
Defined.

(** C1.  The broadcast of [open()] looks for [.dropdown.is-open], while
    [initDropdowns] builds an instance for every [data-dropdown] element.
    On two such containers without the class [dropdown], the first is open
    after a click on its trigger and the broadcast of the second [open()]
    finds no element to close: after a click on the second trigger both
    instances are open, and the log of the second opening is produced with
    both open. *)
Theorem exclusion_relies_on_dropdown_class :
  let p0 := initDropdowns [unclassed_markup "a"; unclassed_markup "b"] in
  let p1 := run p0 [Click (TriggerOf 0)] in
  let p2 := run p1 [Click (TriggerOf 1)] in
  map isOpen (instances p1) = [true; false]
  /\ querySelectorAll_dropdown_is_open p1 = []
  /\ map isOpen (instances p2) = [true; true]
  /\ (fun e => (fst e, map isOpen (snd e))) <$> last (trace p2)
     = Some (ConsoleLog "Dropdown opened:" (Val "b"), [true; true]).
Proof. evaluate. Qed.

(** ** [indexOf] on the option references of an instance *)

Lemma indexOf_from_seq d k a n i :
  (a <= k < a + n)%nat ->
  indexOf_from (d, k) (map (fun j => (d, j)) (seq a n)) i
  = i + Z.of_nat (k - a).
Proof.
  revert a i. induction n as [|n IH]; intros a i Hk; [lia|]. simpl.
  case_decide as Heq.
  - injection Heq as ->. replace (a - a)%nat with 0%nat by lia. lia.
  - assert (k ≠ a) by congruence.
    rewrite IH by lia. replace (k - a)%nat with (S (k - S a)) by lia. lia.
Qed.

Lemma indexOf_option_refs d k s :
  (k < length (options s))%nat ->
  indexOf (d, k) (option_refs d s) = Z.of_nat k.
Proof.
  intros Hk. unfold indexOf, option_refs.
  rewrite indexOf_from_seq by lia. f_equal. lia.
Qed.

Lemma indexOf_from_range x l i :
  indexOf_from x l i = -1
  \/ i <= indexOf_from x l i < i + Z.of_nat (length l).
Proof.
  revert i. induction l as [|y l IH]; intros i; simpl; [by left|].
  case_decide; [right; lia|].
  destruct (IH (i + 1)) as [->|?]; [by left|right; lia].
Qed.

Lemma selectedIndex_range d s :
  -1 <= selectedIndex d s < Z.of_nat (length (options s)).
Proof.
  unfold selectedIndex. destruct (selectedOption s) as [| |r]; try lia.
  unfold indexOf.
  destruct (indexOf_from_range r (option_refs d s) 0) as [->|H]; [lia|].
  unfold option_refs in *. rewrite length_map, length_seq in H. lia.
Qed.

Lemma selectedIndex_own d k s :
  selectedOption s = Val (d, k) -> (k < length (options s))%nat ->
  selectedIndex d s = Z.of_nat k.
Proof.
  intros Hs Hk. unfold selectedIndex. rewrite Hs.
  by apply indexOf_option_refs.
Qed.

Lemma open_lookup d p s :
  instances p !! d = Some s -> isOpen s = false ->
  instances (open d p) !! d = Some (open_effects d s).
Proof.
  intros Hd Ho. unfold open. rewrite Hd, Ho.
  rewrite instances_log_id. apply lookup_update_eq.
  by rewrite close_others_self.
Qed.

Lemma focusedIndex_open_effects d s :
  focusedIndex (open_effects d s) = selectedIndex d s.
Proof.
  unfold open_effects, selectedIndex; simpl.
  by destruct (selectedOption s).
Qed.

(** C7.  [open()] leaves the whole page as it is when the instance is
    already open.  Otherwise the instance is open afterwards and its
    focused index is its selected index: the position of the selected
    option when there is one, -1 (none) when there is none; the selection
    itself is not changed. *)
Theorem open_focuses_selection (p : Page) (d : nat) (s : Dropdown) :
  instances p !! d = Some s ->
  (isOpen s = true -> open d p = p)
  /\ (isOpen s = false ->
      exists s',
        instances (open d p) !! d = Some s'
        /\ isOpen s' = true
        /\ focusedIndex s' = selectedIndex d s
        /\ selectedOption s' = selectedOption s
        /\ (forall k, selectedOption s = Val (d, k) ->
                      (k < length (options s))%nat ->
                      focusedIndex s' = Z.of_nat k)
        /\ (truthy (selectedOption s) = false -> focusedIndex s' = -1)).
Proof.
  intros Hd. split.
  - intros Ho. unfold open. by rewrite Hd, Ho.
  - intros Ho. exists (open_effects d s).
    split; [by apply open_lookup|]. split; [done|].
    split; [apply focusedIndex_open_effects|]. split; [done|]. split.
    + intros k Hk Hlt. rewrite focusedIndex_open_effects.
      by apply selectedIndex_own.
    + intros Hn. rewrite focusedIndex_open_effects. unfold selectedIndex.
      by destruct (selectedOption s).
Qed.

Lemma open_focuses_selection_witness :
  exists s',
    instances (open 0 (bare_page false (-1))) !! 0%nat = Some s'
    /\ focusedIndex s' = 2.
Proof.
  destruct (open_focuses_selection (bare_page false (-1)) 0
              (bare_dropdown false (-1)) eq_refl) as [_ H].
  destruct (H eq_refl) as (s' & Hs' & _ & _ & _ & Hk & _).
  exists s'. split; [exact Hs'|].
  apply (Hk 2%nat); [reflexivity|simpl; lia].
Defined.

(** ** [selectOption] on an option element of the instance itself *)

Lemma restyled_refl e : restyled e e.
Proof. by split. Qed.

Lemma restyled_unmark e : restyled e (unmark_selected e).
Proof.
  split; [done|]. unfold dataset_value, getAttribute; simpl.
  by rewrite lookup_insert_ne.
Qed.

Lemma restyled_mark e : restyled e (mark_selected e).
Proof.
  split; [done|]. unfold dataset_value, getAttribute; simpl.
  by rewrite lookup_insert_ne.
Qed.

(** The instance after the previous selection has been unmarked. *)
Lemma unmark_previous_lookup p d s (prev : js optref) :
  instances p !! d = Some s ->
  exists s1,
    instances (match prev with
               | Val r => update_option r unmark_selected p
               | _ => p
               end) !! d = Some s1
    /\ s1 = set_options (options s1) s
    /\ length (options s1) = length (options s)
    /\ forall k el, options s !! k = Some el ->
         exists el1, options s1 !! k = Some el1 /\ restyled el el1.
Proof.
  intros Hd.
  assert (exists s1, instances p !! d = Some s1
            /\ s1 = set_options (options s1) s
            /\ length (options s1) = length (options s)
            /\ forall k el, options s !! k = Some el ->
                 exists el1, options s1 !! k = Some el1 /\ restyled el el1)
    as Hsame.
  { exists s. split; [done|]. split; [by destruct s|]. split; [done|].
    intros k el Hk. exists el. split; [done|apply restyled_refl]. }
  destruct prev as [| |[d' k']]; try exact Hsame.
  unfold update_option; cbn [fst snd].
  destruct (decide (d' = d)) as [->|Hne]; [|by rewrite lookup_update_ne].
  eexists. split; [by apply lookup_update_eq|]. simpl.
  split; [done|]. split; [apply length_alter|].
  intros k el Hk. destruct (decide (k' = k)) as [->|Hkk].
  - exists (unmark_selected el). rewrite list_lookup_alter_eq, Hk.
    split; [done|apply restyled_unmark].
  - exists el. rewrite list_lookup_alter_ne by done.
    split; [done|apply restyled_refl].
Qed.

Lemma trace_close d p s :
  instances p !! d = Some s ->
  trace (close d p)
  = trace p
    ++ (if isOpen s
        then [(ConsoleLog "Dropdown closed:" (Val (element_id (dropdown s))),
               instances (close d p))]
        else []).
Proof.
  intros Hd. unfold close. rewrite Hd.
  destruct (isOpen s) eqn:Ho; simpl; [|by rewrite app_nil_r].
  unfold log_id. by rewrite (lookup_update_eq _ _ _ _ Hd).
Qed.

Lemma instances_log_selected d p :
  instances (log_selected d p) = instances p.
Proof. unfold log_selected. by destruct (instances p !! d). Qed.

Lemma selectOption_own p d k i s el :
  instances p !! d = Some s -> options s !! k = Some el ->
  exists q s',
    selectOption d (Val (d, k)) i p = (q, Normal)
    /\ instances q !! d = Some s'
    /\ isOpen s' = false
    /\ selectedOption s' = Val (d, k)
    /\ selectedValue s' = dataset_value el
    /\ innerHTML (valueDisplay s') = innerHTML el
    /\ length (options s') = length (options s)
    /\ focusedIndex s' = (if isOpen s then -1 else focusedIndex s)
    /\ trace q
       = trace p
         ++ (if isOpen s
             then [(ConsoleLog "Dropdown closed:"
                      (Val (element_id (dropdown s))), instances q)]
             else [])
         ++ [(DispatchEvent d "dropdown:select"
                (mkDetail (dataset_value el) (d, k) d), instances q);
             (ConsoleLog "Option selected:" (dataset_value el),
              instances q)].
Proof.
  intros Hd Hk. unfold selectOption. rewrite Hd.
  destruct (unmark_previous_lookup p d s (selectedOption s) Hd)
    as (s1 & H1 & Hs1 & Hlen & Hopt).
  destruct (Hopt k el Hk) as (el1 & Hel1 & Hhtml & Hdata).
  set (p1 := match selectedOption s with
             | Val prev => update_option prev unmark_selected p
             | _ => p
             end) in *.
  assert (trace p1 = trace p) as Ht1.
  { unfold p1. by destruct (selectedOption s). }
  set (p2 := update d (set_selectedOption (Val (d, k))) p1).
  assert (instances p2 !! d = Some (set_selectedOption (Val (d, k)) s1))
    as H2 by (by apply lookup_update_eq).
  assert (deref (d, k) p2 = Some el1) as ->.
  { unfold deref; cbn [fst snd]. by rewrite H2. }
  set (p3 := update d (set_selectedValue (dataset_value el1)) p2).
  pose proof (lookup_update_eq d (set_selectedValue (dataset_value el1))
                p2 _ H2) as H3. fold p3 in H3.
  set (p4 := update_option (d, k) mark_selected p3).
  assert (exists s4, instances p4 !! d = Some s4
            /\ isOpen s4 = isOpen s /\ focusedIndex s4 = focusedIndex s
            /\ selectedOption s4 = Val (d, k)
            /\ selectedValue s4 = dataset_value el
            /\ dropdown s4 = dropdown s
            /\ length (options s4) = length (options s))
    as (s4 & H4 & Ho4 & Hf4 & Hso4 & Hsv4 & Hdd4 & Hl4).
  { eexists. split; [unfold p4, update_option; cbn [fst snd];
                     by apply lookup_update_eq|].
    rewrite Hs1. simpl. rewrite length_alter.
    repeat split; try done. }
  set (p5 := update d (show_selection (innerHTML el1)) p4).
  pose proof (lookup_update_eq d (show_selection (innerHTML el1)) p4 _ H4)
    as H5. fold p5 in H5.
  assert (trace p5 = trace p) as Ht5 by (by rewrite <- Ht1).
  set (s5 := show_selection (innerHTML el1) s4) in *.
  set (q := close d p5).
  pose proof (close_lookup_eq d p5 s5 H5) as H6. fold q in H6.
  pose proof (trace_close d p5 s5 H5) as Ht6. fold q in Ht6.
  assert (isOpen s5 = isOpen s) as Ho5 by exact Ho4.
  rewrite Ho5 in H6, Ht6.
  exists (log_selected d (emit (select_event d (d, k) q) q)).
  exists (if isOpen s then close_effects s5 else s5).
  assert (instances (log_selected d (emit (select_event d (d, k) q) q))
          = instances q) as Hinst.
  { by rewrite instances_log_selected, instances_emit. }
  split; [done|]. rewrite Hinst. split; [exact H6|].
  split; [by destruct (isOpen s) eqn:E|].
  split; [by destruct (isOpen s)|].
  split; [by destruct (isOpen s)|].
  split; [destruct (isOpen s); simpl; exact Hhtml|].
  split; [destruct (isOpen s); simpl; [by rewrite length_map|done]|].
  split; [destruct (isOpen s); [done|exact Hf4]|].
  unfold log_selected, select_event. rewrite instances_emit, H6.
  rewrite trace_emit, trace_emit, instances_emit, Ht6, Ht5.
  assert (selectedValue (if isOpen s then close_effects s5 else s5)
          = dataset_value el) as -> by (by destruct (isOpen s)).
  assert (dropdown s5 = dropdown s) as -> by exact Hdd4.
  by rewrite <- !app_assoc.
Qed.

Lemma notifications_app tr1 tr2 :
  notifications (tr1 ++ tr2) = notifications tr1 ++ notifications tr2.
Proof. apply flat_map_app. Qed.

Lemma notifications_closing (b : bool) o (l : list Dropdown) :
  (forall t ty de, o ≠ DispatchEvent t ty de) ->
  notifications (if b then [(o, l)] else []) = [].
Proof.
  intros Ho. destruct b; [|done]. unfold notifications, notification; simpl.
  destruct o; try done. by destruct (Ho target type detail).
Qed.

(** C4.  For an instance [d] and a valid index [k] of its options,
    [selectOption(options[k], k)] completes normally, leaves the instance
    closed with selected index [k], and adds exactly one notification to
    the trace: a 'dropdown:select' event on the container of [d] whose
    detail carries the value of the option, the option element (the one at
    index [k]) and the container of the instance. *)
Theorem selectOption_selects_and_notifies
  (p : Page) (d k : nat) (s : Dropdown) (el : Element) :
  instances p !! d = Some s -> options s !! k = Some el ->
  exists q s',
    selectOption d (Val (d, k)) (Z.of_nat k) p = (q, Normal)
    /\ instances q !! d = Some s'
    /\ isOpen s' = false
    /\ selectedOption s' = Val (d, k)
    /\ selectedIndex d s' = Z.of_nat k
    /\ notifications (trace q)
       = notifications (trace p)
         ++ [(d, mkDetail (dataset_value el) (d, k) d)]
    /\ indexOf (d, k) (option_refs d s') = Z.of_nat k.
Proof.
  intros Hd Hk.
  destruct (selectOption_own p d k (Z.of_nat k) s el Hd Hk)
    as (q & s' & Hq & Hs' & Ho & Hso & _ & _ & Hlen & _ & Htr).
  assert (k < length (options s'))%nat as Hlt.
  { rewrite Hlen. by eapply lookup_lt_Some. }
  exists q, s'. repeat split; try done.
  - by apply selectedIndex_own.
  - rewrite Htr, !notifications_app, notifications_closing by done.
    reflexivity.
  - by apply indexOf_option_refs.
Qed.

Lemma selectOption_selects_and_notifies_witness :
  exists q s',
    selectOption 0 (Val (0%nat, 1%nat)) 1 (bare_page true 2) = (q, Normal)
    /\ instances q !! 0%nat = Some s'
    /\ isOpen s' = false
    /\ selectedIndex 0 s' = 1
    /\ notifications (trace q) = [(0%nat, mkDetail Undefined (0, 1)%nat 0%nat)].
Proof.
  destruct (selectOption_selects_and_notifies (bare_page true 2) 0 1
              (bare_dropdown true 2) (bare_element "Two") eq_refl eq_refl)
    as (q & s' & Hq & Hs' & Ho & _ & Hi & Hn & _).
  exists q, s'. repeat split; assumption.
Defined.

(** X24.  [selectOption] closes before it dispatches: when the
    'dropdown:select' event of a valid own option is dispatched, what an
    observer sees of the instance is already closed, with the value of the
    chosen option as [selectedValue] and its HTML in the value display.
    The focused index the observer sees is -1 when the instance was open,
    and the one it had when it was closed already ([close()] returns at
    its guard then), which is -1 as well where a closed instance has no
    focused index.  The only output before the event is the log of the
    closing, when the instance was open, and no other event is
    dispatched. *)
Theorem selectOption_closes_before_notifying
  (p : Page) (d k : nat) (s : Dropdown) (el : Element) :
  instances p !! d = Some s -> options s !! k = Some el ->
  exists q before detail seen s' after,
    selectOption d (Val (d, k)) (Z.of_nat k) p = (q, Normal)
    /\ trace q
       = trace p ++ before
         ++ (DispatchEvent d "dropdown:select" detail, seen) :: after
    /\ notifications before = [] /\ notifications after = []
    /\ map fst before
       = (if isOpen s
          then [ConsoleLog "Dropdown closed:" (Val (element_id (dropdown s)))]
          else [])
    /\ seen !! d = Some s'
    /\ isOpen s' = false
    /\ focusedIndex s' = (if isOpen s then -1 else focusedIndex s)
    /\ (unfocused_when_closed s -> focusedIndex s' = -1)
    /\ selectedValue s' = dataset_value el
    /\ detail_value detail = dataset_value el
    /\ innerHTML (valueDisplay s') = innerHTML el.
Proof.
  intros Hd Hk.
  destruct (selectOption_own p d k (Z.of_nat k) s el Hd Hk)
    as (q & s' & Hq & Hs' & Ho & _ & Hsv & Hhtml & _ & Hf & Htr).
  exists q. eexists. eexists. exists (instances q), s'. eexists.
  split; [exact Hq|]. split; [exact Htr|].
  split; [by apply notifications_closing|]. split; [done|].
  split; [by destruct (isOpen s)|].
  split; [done|]. split; [done|]. split; [exact Hf|].
  split; [|by repeat split].
  intros Hu. rewrite Hf. destruct (isOpen s) eqn:Hos; [done|by apply Hu].
Qed.

Lemma selectOption_closes_before_notifying_witness :
  exists q before detail seen s' after,
    selectOption 0 (Val (0%nat, 1%nat)) 1 (bare_page true 2) = (q, Normal)
    /\ trace q
       = before ++ (DispatchEvent 0 "dropdown:select" detail, seen) :: after
    /\ seen !! 0%nat = Some s'
    /\ isOpen s' = false
    /\ focusedIndex s' = -1.
Proof.
  destruct (selectOption_closes_before_notifying (bare_page true 2) 0 1
              (bare_dropdown true 2) (bare_element "Two") eq_refl eq_refl)
    as (q & before & detail & seen & s' & after & Hq & Ht & _ & _ & _
        & Hseen & Ho & Hf & _).
  exists q, before, detail, seen, s', after. repeat split; assumption.
Defined.

(** C10.  [selectOption] calls [close()] before it dispatches, but
    [close()] returns at its guard on an instance [destroy()] has been
    called on, and [destroy()] leaves the focused index as it is.  On the
    sample page, after the first dropdown has been opened, moved to its
    first option and destroyed, a click on its second option (whose
    listener [destroy()] leaves in place) and a call of [selectOption] both
    dispatch the notification while the instance still has focused index
    0; it is closed and shows the value and the label of the option. *)
Theorem notification_after_destroy_shows_focus :
  let p := run sample_page focus_then_destroy in
  let q := run p [Click (OptionOf 0 1)] in
  let r := run p [CallSelectOption 0 (Val (0%nat, 1%nat)) 1] in
  focus_view <$> instances p !! 0%nat = Some (false, 0, [true; false; false])
  /\ seen_at_notifications 0 (trace p) = []
  /\ seen_at_notifications 0 (trace q)
     = [(false, 0, Val "option2", "Option 2")]
  /\ seen_at_notifications 0 (trace r)
     = [(false, 0, Val "option2", "Option 2")].
Proof. evaluate. Qed.

(** ** The selection is changed by [selectOption] only *)

Lemma same_selection_refl s : same_selection s s.
Proof. by repeat split. Qed.

Lemma same_selection_trans a b c :
  same_selection a b -> same_selection b c -> same_selection a c.
Proof. intros (? & ? & ?) (? & ? & ?). repeat split; congruence. Qed.

Lemma same_selection_index d s s' :
  same_selection s s' -> selectedIndex d s' = selectedIndex d s.
Proof.
  intros (Ho & _ & Hl). unfold selectedIndex, option_refs. by rewrite Ho, Hl.
Qed.

Lemma same_selection_close s : same_selection s (close_effects s).
Proof. repeat split; simpl. apply length_map. Qed.

Lemma same_selection_open d s : same_selection s (open_effects d s).
Proof. by repeat split. Qed.

Lemma same_selection_focus (i : Z) s :
  same_selection s (updateFocusedOption_effects (set_focusedIndex i s)).
Proof.
  unfold updateFocusedOption_effects. destruct (_ && _); repeat split; simpl;
    rewrite ?length_alter, ?length_map; done.
Qed.

Lemma same_selection_destroy s : same_selection s (destroy_effects s).
Proof. by repeat split. Qed.

(** Steps that do not reach [selectOption] keep every selection. *)
Lemma same_selection_step st p :
  reaches_select st p = false ->
  related same_selection p (run_step p st).
Proof.
  intros Hst.
  pose proof same_selection_refl as Hr.
  pose proof same_selection_trans as Htr.
  apply (I_run_step (related same_selection p)).
  - intros d q Hq. eapply related_trans; [done|exact Hq|].
    apply related_open; auto using same_selection_close, same_selection_open.
  - intros d q Hq. eapply related_trans; [done|exact Hq|].
    apply related_close; auto using same_selection_close.
  - intros d g q s Hg Hq Hd Ho. eapply related_trans; [done|exact Hq|].
    eapply related_focus; eauto using same_selection_focus.
  - intros o q Hq. eapply related_trans; [done|exact Hq|].
    by apply related_emit.
  - intros Hsel. congruence.
  - intros _ d. apply related_destroy; auto using same_selection_destroy.
  - by apply related_refl.
Qed.

(** X23.  [close()] leaves the instance closed, with the selection it
    had: [selectedOption], [selectedValue] and the selected index.  On an
    open instance it resets the focused index to -1; on a closed one it
    returns at its guard and the page stays as it is.  And every step that
    does not reach a call of [selectOption] - clicks, key presses, open,
    close, destroy - leaves the selection of every instance as it was. *)
Theorem close_resets_focus_keeps_selection
  (p : Page) (d : nat) (s : Dropdown) :
  instances p !! d = Some s ->
  (exists s',
     instances (close d p) !! d = Some s'
     /\ isOpen s' = false
     /\ (isOpen s = true -> focusedIndex s' = -1)
     /\ (isOpen s = false -> close d p = p)
     /\ selectedOption s' = selectedOption s
     /\ selectedValue s' = selectedValue s
     /\ selectedIndex d s' = selectedIndex d s)
  /\ forall st j sj,
       reaches_select st p = false -> instances p !! j = Some sj ->
       exists sj',
         instances (run_step p st) !! j = Some sj'
         /\ selectedOption sj' = selectedOption sj
         /\ selectedValue sj' = selectedValue sj
         /\ selectedIndex j sj' = selectedIndex j sj.
Proof.
  intros Hd. split.
  - eexists. split; [by apply close_lookup_eq|].
    destruct (isOpen s) eqn:Ho; simpl.
    + repeat split; try done.
      apply (same_selection_index d s (close_effects s)).
      apply same_selection_close.
    + repeat split; try done. intros _. unfold close. by rewrite Hd, Ho.
  - intros st j sj Hst Hj.
    destruct (same_selection_step st p Hst) as [HF _].
    destruct (Forall2_lookup_l _ _ _ _ _ HF Hj) as (sj' & Hj' & Hsel).
    exists sj'. split; [done|].
    pose proof (same_selection_index j _ _ Hsel).
    destruct Hsel as (? & ? & _). done.
Qed.

Lemma close_resets_focus_keeps_selection_witness :
  exists s',
    instances (close 0 (bare_page true 1)) !! 0%nat = Some s'
    /\ focusedIndex s' = -1
    /\ selectedOption s' = Val (0%nat, 2%nat).
Proof.
  destruct (close_resets_focus_keeps_selection (bare_page true 1) 0
              (bare_dropdown true 1) eq_refl)
    as [(s' & Hs' & _ & Hf & _ & Hso & _) _].
  exists s'. split; [exact Hs'|]. split; [exact (Hf eq_refl)|exact Hso].
Defined.

(** C8.  [close()] returns at its guard when [isOpen] is false, and
    [destroy()] clears [isOpen] without resetting the focused index.  On
    the sample page, after the first dropdown has been opened and moved to
    its first option, [close()] resets the focused index and removes the
    highlight; after [destroy()] on the same page, [close()] changes
    nothing, logs nothing, and the instance keeps focused index 0 and its
    highlight. *)
Theorem close_after_destroy_keeps_focus :
  let p := run sample_page [Click (TriggerOf 0); KeyDown 0 "ArrowDown"] in
  let q := run sample_page focus_then_destroy in
  focus_view <$> instances p !! 0%nat = Some (true, 0, [true; false; false])
  /\ focus_view <$> instances (run p [CallClose 0]) !! 0%nat
     = Some (false, -1, [false; false; false])
  /\ focus_view <$> instances q !! 0%nat
     = Some (false, 0, [true; false; false])
  /\ focus_view <$> instances (run q [CallClose 0]) !! 0%nat
     = Some (false, 0, [true; false; false])
  /\ length (trace (run q [CallClose 0])) = length (trace q).
Proof. evaluate. Qed.

(** ** Keyboard navigation *)

Lemma updateFocusedOption_effects_fields s :
  isOpen (updateFocusedOption_effects s) = isOpen s
  /\ focusedIndex (updateFocusedOption_effects s) = focusedIndex s
  /\ length (options (updateFocusedOption_effects s)) = length (options s).
Proof.
  unfold updateFocusedOption_effects. destruct (_ && _); simpl;
    rewrite ?length_alter, ?length_map; done.
Qed.

Lemma focus_lookup d (g : Dropdown -> Z) p s :
  instances p !! d = Some s ->
  instances (updateFocusedOption d
               (update d (fun s => set_focusedIndex (g s) s) p)) !! d
  = Some (updateFocusedOption_effects (set_focusedIndex (g s) s)).
Proof.
  intros Hd. unfold updateFocusedOption. rewrite update_update.
  by rewrite (lookup_update_eq _ _ _ _ Hd).
Qed.

Lemma handleKeyboard_navigation d key p s :
  instances p !! d = Some s -> isOpen s = true -> In key navigation_keys ->
  snd (handleKeyboard d key p) = Normal
  /\ instances (fst (handleKeyboard d key p)) !! d
     = Some (updateFocusedOption_effects
               (set_focusedIndex
                  (focus_after (lastIndex s) (focusedIndex s) key) s)).
Proof.
  intros Hd Ho Hkey. unfold handleKeyboard. rewrite Hd, Ho.
  simpl in Hkey.
  destruct Hkey as [<-|[<-|[<-|[<-|[]]]]]; simpl; (split; [done|]).
  - apply (focus_lookup d
             (fun s => Z.min (focusedIndex s + 1)
                         (Z.of_nat (length (options s)) - 1)) p s Hd).
  - apply (focus_lookup d (fun s => Z.max (focusedIndex s - 1) 0) p s Hd).
  - apply (focus_lookup d (fun _ => 0) p s Hd).
  - apply (focus_lookup d
             (fun s => Z.of_nat (length (options s)) - 1) p s Hd).
Qed.

Lemma focus_after_range last f key :
  0 <= last -> -1 <= f <= last -> 0 <= focus_after last f key <= last.
Proof.
  intros Hl Hf. unfold focus_after.
  repeat match goal with |- context [if ?b then _ else _] => destruct b end;
    lia.
Qed.

Lemma press_navigation d keys :
  forall p s,
    instances p !! d = Some s -> isOpen s = true ->
    Forall (fun key => In key navigation_keys) keys ->
    exists s',
      instances (press d p keys) !! d = Some s'
      /\ isOpen s' = true
      /\ lastIndex s' = lastIndex s
      /\ focusedIndex s'
         = foldl (focus_after (lastIndex s)) (focusedIndex s) keys.
Proof.
  induction keys as [|key keys IH]; intros p s Hd Ho Hkeys; simpl.
  - exists s. by repeat split.
  - apply Forall_cons in Hkeys as [Hkey Hkeys].
    destruct (handleKeyboard_navigation d key p s Hd Ho Hkey) as [_ H1].
    set (s1 := updateFocusedOption_effects
                 (set_focusedIndex
                    (focus_after (lastIndex s) (focusedIndex s) key) s)) in *.
    destruct (updateFocusedOption_effects_fields
                (set_focusedIndex
                   (focus_after (lastIndex s) (focusedIndex s) key) s))
      as (Ho1 & Hf1 & Hl1). fold s1 in Ho1, Hf1, Hl1. simpl in Ho1, Hf1, Hl1.
    assert (lastIndex s1 = lastIndex s) as Hlast.
    { unfold lastIndex. by rewrite Hl1. }
    destruct (IH _ s1 H1) as (s' & Hs' & Ho' & Hl' & Hf'); [congruence|done|].
    exists s'. split; [exact Hs'|]. split; [exact Ho'|].
    split; [congruence|]. by rewrite Hf', Hlast, Hf1.
Qed.

Lemma foldl_focus_after_range last keys :
  0 <= last -> forall f, -1 <= f <= last ->
  -1 <= foldl (focus_after last) f keys <= last
  /\ (keys ≠ [] -> 0 <= foldl (focus_after last) f keys).
Proof.
  intros Hl. induction keys as [|key keys IH]; intros f Hf; simpl.
  - split; [lia|done].
  - pose proof (focus_after_range last f key Hl Hf) as H1.
    destruct (IH (focus_after last f key)) as [H2 H3]; [lia|].
    split; [done|]. intros _. destruct keys as [|k2 keys]; simpl in *; [lia|].
    by apply H3.
Qed.

Lemma foldl_focus_after_down last n :
  foldl (focus_after last) last (replicate n "ArrowDown") = last.
Proof.
  induction n as [|n IH]; simpl; [done|].
  unfold focus_after at 2. simpl.
  replace (Z.min (last + 1) last) with last by lia. exact IH.
Qed.

Lemma foldl_focus_after_up last n :
  foldl (focus_after last) 0 (replicate n "ArrowUp") = 0.
Proof.
  induction n as [|n IH]; simpl; [done|].
  unfold focus_after at 2. simpl. exact IH.
Qed.

(** X26.  While an instance with at least one option is open and its
    focused index is none or a valid index, ArrowDown sets the focused
    index to min(focused + 1, last), ArrowUp to max(focused - 1, 0), Home
    to 0 and End to last; after any sequence of these keys the instance is
    still open and the focused index is none or within [0, last], and
    within [0, last] as soon as one key was pressed; repeated ArrowDown at
    the last index stays there and repeated ArrowUp at index 0 stays at 0. *)
Theorem navigation_stays_in_range
  (p : Page) (d : nat) (s : Dropdown) (keys : list string) :
  instances p !! d = Some s -> isOpen s = true ->
  (0 < length (options s))%nat ->
  -1 <= focusedIndex s <= lastIndex s ->
  Forall (fun key => In key navigation_keys) keys ->
  exists s',
    instances (press d p keys) !! d = Some s'
    /\ isOpen s' = true
    /\ lastIndex s' = lastIndex s
    /\ -1 <= focusedIndex s' <= lastIndex s
    /\ (keys ≠ [] -> 0 <= focusedIndex s' <= lastIndex s)
    /\ (keys = ["ArrowDown"] ->
        focusedIndex s' = Z.min (focusedIndex s + 1) (lastIndex s))
    /\ (keys = ["ArrowUp"] -> focusedIndex s' = Z.max (focusedIndex s - 1) 0)
    /\ (keys = ["Home"] -> focusedIndex s' = 0)
    /\ (keys = ["End"] -> focusedIndex s' = lastIndex s)
    /\ (forall n, keys = replicate n "ArrowDown" ->
                  focusedIndex s = lastIndex s ->
                  focusedIndex s' = lastIndex s)
    /\ (forall n, keys = replicate n "ArrowUp" ->
                  focusedIndex s = 0 -> focusedIndex s' = 0).
Proof.
  intros Hd Ho Hlen Hf Hkeys.
  destruct (press_navigation d keys p s Hd Ho Hkeys)
    as (s' & Hs' & Ho' & Hl' & Hf').
  assert (0 <= lastIndex s) as Hlast by (unfold lastIndex; lia).
  destruct (foldl_focus_after_range (lastIndex s) keys Hlast
              (focusedIndex s) Hf) as [Hr Hr0].
  exists s'. rewrite Hf'.
  split; [exact Hs'|]. split; [exact Ho'|]. split; [exact Hl'|].
  split; [exact Hr|]. split; [intros Hne; specialize (Hr0 Hne); lia|].
  repeat split; try (intros ->; reflexivity).
  - intros n -> ->. apply foldl_focus_after_down.
  - intros n -> ->. apply foldl_focus_after_up.
Qed.

Lemma navigation_stays_in_range_witness :
  exists s',
    instances (press 0 (bare_page true 1) ["ArrowDown"; "ArrowDown"; "Home"])
      !! 0%nat = Some s'
    /\ isOpen s' = true
    /\ 0 <= focusedIndex s' <= 2.
Proof.
  assert (Forall (fun key => In key navigation_keys)
            ["ArrowDown"; "ArrowDown"; "Home"]) as Hkeys.
  { repeat (apply Forall_cons; split; [simpl; auto 6|]). constructor. }
  destruct (navigation_stays_in_range (bare_page true 1) 0
              (bare_dropdown true 1) ["ArrowDown"; "ArrowDown"; "Home"]
              eq_refl eq_refl ltac:(simpl; lia)
              ltac:(unfold lastIndex; simpl; lia) Hkeys)
    as (s' & Hs' & Ho' & _ & _ & Hr & _).
  exists s'. split; [exact Hs'|]. split; [exact Ho'|].
  apply Hr. discriminate.
Defined.

(** C6.  [focusFirstOption] and [focusPreviousOption] do not look at the
    number of options.  On an open instance without option elements, Home
    and ArrowUp set the focused index to 0, which is no index of its empty
    option list; [updateFocusedOption] then finds nothing to highlight, and
    the Enter case of [handleKeyboard] takes the index for a valid one. *)
Theorem navigation_without_options_leaves_range :
  let p := run empty_page [Click (TriggerOf 0)] in
  (fun s => (isOpen s, length (options s), focusedIndex s, focus_in_range s))
    <$> instances p !! 0%nat
  = Some (true, 0%nat, -1, false)
  /\ (fun s => (isOpen s, length (options s), focusedIndex s, focus_in_range s))
       <$> instances (press 0 p ["Home"]) !! 0%nat
     = Some (true, 0%nat, 0, false)
  /\ (fun s => (isOpen s, length (options s), focusedIndex s, focus_in_range s))
       <$> instances (press 0 p ["ArrowUp"]) !! 0%nat
     = Some (true, 0%nat, 0, false)
  /\ snd (handleKeyboard 0 "Enter" (press 0 p ["Home"])) = Throw "TypeError".
Proof. evaluate. Qed.

(** ** Activation from the keyboard and the pointer *)



(** The guard at the head of [handleKeyboard] returns for every key but
    Enter and Space while the instance is closed: ArrowDown and ArrowUp on
    a closed instance leave the page as it is, and the [open()] calls in
    their cases are never reached. *)
Lemma arrows_ignored_while_closed p d s key :
  instances p !! d = Some s -> isOpen s = false ->
  In key ["ArrowDown"; "ArrowUp"] ->
  handleKeyboard d key p = (p, Normal) /\ keydown d key p = p.
Proof.
  intros Hd Ho Hkey. simpl in Hkey.
  assert (handleKeyboard d key p = (p, Normal)) as H.
  { unfold handleKeyboard. rewrite Hd, Ho.
    by destruct Hkey as [<-|[<-|[]]]. }
  split; [exact H|]. unfold keydown. rewrite Hd, H.
  by destruct (on_keydown s).
Qed.

(** C5.  The ArrowDown and ArrowUp cases of [handleKeyboard] call
    [open()] for a closed instance, but the guard at the head of the
    method has returned by then for every key other than Enter and Space.
    On the freshly initialised sample page, ArrowDown or ArrowUp in the
    first dropdown opens nothing and produces no output, where Enter,
    Space and a click on the trigger open it. *)
Theorem arrow_keys_do_not_open :
  map isOpen (instances (run sample_page [KeyDown 0 "ArrowDown"]))
  = [false; false; false]
  /\ map isOpen (instances (run sample_page [KeyDown 0 "ArrowUp"]))
     = [false; false; false]
  /\ length (trace (run sample_page [KeyDown 0 "ArrowDown"]))
     = length (trace sample_page)
  /\ length (trace (run sample_page [KeyDown 0 "ArrowUp"]))
     = length (trace sample_page)
  /\ map isOpen (instances (run sample_page [KeyDown 0 "Enter"]))
     = [true; false; false]
  /\ map isOpen (instances (run sample_page [KeyDown 0 " "]))
     = [true; false; false]
  /\ map isOpen (instances (run sample_page [Click (TriggerOf 0)]))
     = [true; false; false].
Proof. evaluate. Qed.



(** ** Calls the source does not guard *)

Lemma options_at_out_of_range d s i :
  Z.of_nat (length (options s)) <= i -> options_at d s i = Undefined.
Proof.
  intros Hi. unfold options_at.
  destruct (Z.ltb_spec i (Z.of_nat (length (options s)))); [lia|].
  by rewrite andb_false_r.
Qed.

(** [selectOption] on [undefined] throws after it has overwritten
    [selectedOption], and dispatches nothing. *)
Lemma selectOption_undefined_throws d i p s :
  instances p !! d = Some s ->
  snd (selectOption d Undefined i p) = Throw "TypeError"
  /\ trace (fst (selectOption d Undefined i p)) = trace p
  /\ exists s',
       instances (fst (selectOption d Undefined i p)) !! d = Some s'
       /\ selectedOption s' = Undefined.
Proof.
  intros Hd. unfold selectOption. rewrite Hd. cbn [fst snd].
  destruct (unmark_previous_lookup p d s (selectedOption s) Hd)
    as (s1 & H1 & _).
  split; [done|]. split.
  - rewrite trace_update. by destruct (selectedOption s).
  - exists (set_selectedOption Undefined s1).
    split; [by apply lookup_update_eq|done].
Qed.

(** An out-of-range index, passed the way the callers do, ends there. *)
Lemma selectOption_at_out_of_range d i p s :
  instances p !! d = Some s -> Z.of_nat (length (options s)) <= i ->
  snd (selectOption_at d i p) = Throw "TypeError".
Proof.
  intros Hd Hi. unfold selectOption_at.
  rewrite Hd, options_at_out_of_range by done.
  by apply (selectOption_undefined_throws d i p s).
Qed.

(** C2.  [selectOption] does not check its index.  On the sample page
    with the first option of the first dropdown selected, a call for index
    7 unmarks that option, overwrites [selectedOption] with [undefined] and
    throws a TypeError; no notification is sent.  The same error is reached
    from the keyboard on an instance without options: open, Home, Enter. *)
Theorem selectOption_out_of_range_throws :
  let p := run sample_page [Click (OptionOf 0 0)] in
  let r := selectOption_at 0 7 p in
  snd r = Throw "TypeError"
  /\ selection_view <$> instances p !! 0%nat
     = Some (Val (0%nat, 0%nat), Val "option1", [Some "true"; None; None])
  /\ selection_view <$> instances (fst r) !! 0%nat
     = Some (Undefined, Val "option1", [Some "false"; None; None])
  /\ notifications (trace (fst r)) = notifications (trace p)
  /\ last (map fst (trace (run empty_page
                             [Click (TriggerOf 0); KeyDown 0 "Home";
                              KeyDown 0 "Enter"])))
     = Some (Uncaught "TypeError").
Proof. evaluate. Qed.

(** C3.  [destroy()] removes the listeners of the trigger, of the
    container and of the document, not those of the options.  On the
    sample page, after the first dropdown has been opened and destroyed, a
    click on its second option still selects it and sends a notification. *)
Theorem destroyed_instance_still_selects :
  let p := run sample_page [Click (TriggerOf 0); CallDestroy 0] in
  let q := run p [Click (OptionOf 0 1)] in
  state_view <$> instances p !! 0%nat
  = Some (false, -1, Null, Null, Some "true")
  /\ state_view <$> instances q !! 0%nat
     = Some (false, -1, Val (0%nat, 1%nat), Val "option2", Some "true")
  /\ notifications (trace p) = []
  /\ notifications (trace q)
     = [(0%nat, mkDetail (Val "option2") (0%nat, 1%nat) 0%nat)].
Proof. evaluate. Qed.

(** C9.  [destroy()] clears [isOpen] and the class [is-open] but leaves
    [aria-expanded] as it is: on the sample page, after the first dropdown
    has been opened and destroyed, it is closed and its trigger still says
    expanded.  [close()] on the same page sets the attribute. *)
Theorem destroy_leaves_aria_expanded :
  let p := run sample_page [Click (TriggerOf 0)] in
  (fun s => (isOpen s, getAttribute "aria-expanded" (trigger s)))
    <$> instances p !! 0%nat = Some (true, Some "true")
  /\ (fun s => (isOpen s, getAttribute "aria-expanded" (trigger s)))
       <$> instances (destroy 0 p) !! 0%nat = Some (false, Some "true")
  /\ (fun s => (isOpen s, getAttribute "aria-expanded" (trigger s)))
       <$> instances (close 0 p) !! 0%nat = Some (false, Some "false").
Proof. evaluate. Qed.

(** ** Instance invariants of pages that are never destroyed *)

Section Keeps.
Variable P : Dropdown -> Prop.
Hypothesis P_close : forall s, isOpen s = true -> P s -> P (close_effects s).
Hypothesis P_open :
  forall d s, isOpen s = false -> P s -> P (open_effects d s).
Hypothesis P_focus :
  forall g s, In g focus_moves -> isOpen s = true -> P s ->
              P (updateFocusedOption_effects (set_focusedIndex (g s) s)).
Hypothesis P_option :
  forall f k s, In f selection_marks -> P s ->
                P (set_options (alter f k (options s)) s).
Hypothesis P_selectedOption : forall o s, P s -> P (set_selectedOption o s).
Hypothesis P_selectedValue : forall v s, P s -> P (set_selectedValue v s).
Hypothesis P_show : forall h s, P s -> P (show_selection h s).

Lemma keeps_refl s : keeps P s s.
Proof. by intros ?. Qed.

Lemma keeps_trans a b c : keeps P a b -> keeps P b c -> keeps P a c.
Proof. unfold keeps. auto. Qed.

Lemma related_keeps p q :
  related (keeps P) p q -> Forall P (instances p) -> Forall P (instances q).
Proof.
  intros [HF _] Hp. apply Forall_lookup. intros i s' Hi.
  destruct (Forall2_lookup_r _ _ _ _ _ HF Hi) as (s & Hs & Hk).
  apply Hk. eapply Forall_lookup_1; eauto.
Qed.

Lemma keeps_steps sts p :
  (forall s, P s -> P (destroy_effects s))
  \/ Forall (fun st => is_destroy st = false) sts ->
  Forall P (instances p) -> Forall P (instances (run p sts)).
Proof.
  intros Hsts Hp.
  pose proof keeps_refl as Hr. pose proof keeps_trans as Ht.
  apply (I_run (fun q => Forall P (instances q))); try done.
  - intros d q Hq. apply (related_keeps q); [|done].
    apply related_open; unfold keeps; auto.
  - intros d q Hq. apply (related_keeps q); [|done].
    apply related_close; unfold keeps; auto.
  - intros d g q s Hg Hq Hd Ho. apply (related_keeps q); [|done].
    eapply related_focus; unfold keeps; eauto.
  - intros q Hq d o i. apply (related_keeps q); [|done].
    apply related_selectOption; unfold keeps; auto.
  - intros st q Hin Hst Hq d. destruct Hsts as [Hdes|Hsts].
    + apply (related_keeps q); [|done].
      apply related_destroy; unfold keeps; auto.
    + pose proof (proj1 (List.Forall_forall _ _) Hsts st Hin). congruence.
Qed.

Lemma keeps_run sts p :
  Forall (fun st => is_destroy st = false) sts ->
  Forall P (instances p) -> Forall P (instances (run p sts)).
Proof. intros Hsts. apply keeps_steps. by right. Qed.
End Keeps.

(** X19.  On every page reached from [initDropdowns] without a call of
    [destroy()], a closed instance has no focused index. *)
Lemma unfocused_when_closed_run ms sts :
  Forall (fun st => is_destroy st = false) sts ->
  Forall unfocused_when_closed (instances (run (initDropdowns ms) sts)).
Proof.
  intros Hsts. apply keeps_run; try done;
    try (unfold unfocused_when_closed; simpl; intros; congruence).
  - intros g s _ Ho Hs.
    destruct (updateFocusedOption_effects_fields (set_focusedIndex (g s) s))
      as (Ho' & _ & _). unfold unfocused_when_closed. simpl in Ho'. congruence.
  - unfold initDropdowns. rewrite instances_emit.
    assert (forall p, Forall unfocused_when_closed (instances p) ->
                      Forall unfocused_when_closed
                        (instances (foldl init_one p ms))) as H.
    { induction ms as [|m ms' IH]; intros p Hp; simpl; [done|].
      apply IH. rewrite instances_init_one. apply Forall_app. split; [done|].
      by repeat constructor. }
    apply H. constructor.
Qed.

(** X21.  As long as [destroy()] is not called, the [aria-expanded] attribute of
    every trigger that said whether its instance is open keeps saying
    so. *)
Lemma expanded_in_sync_run sts p :
  Forall (fun st => is_destroy st = false) sts ->
  Forall expanded_in_sync (instances p) ->
  Forall expanded_in_sync (instances (run p sts)).
Proof.
  apply keeps_run; try done;
    try (unfold expanded_in_sync, getAttribute; simpl; intros;
         by rewrite lookup_insert_eq).
  intros g s _ _ Hs. unfold expanded_in_sync, updateFocusedOption_effects.
  by destruct (_ && _).
Qed.

Lemma foldl_init_one_all (P : Dropdown -> Prop) ms :
  (forall m, P (set_dropdownInstance true (new_Dropdown m))) ->
  forall p, Forall P (instances p) ->
            Forall P (instances (foldl init_one p ms)).
Proof.
  intros HP. induction ms as [|m ms IH]; intros p Hp; simpl; [done|].
  apply IH. rewrite instances_init_one. apply Forall_app. split; [done|].
  repeat constructor. apply HP.
Qed.

(** X20.  On every page reached from [initDropdowns], the focused index of an
    instance with options is none or valid. *)
Lemma focus_valid_run ms sts :
  Forall focus_valid (instances (run (initDropdowns ms) sts)).
Proof.
  apply keeps_steps.
  - intros s Ho Hs Hlen. simpl in *. rewrite length_map in Hlen.
    unfold lastIndex; simpl. rewrite length_map. lia.
  - intros d s Ho Hs Hlen. unfold focus_valid, lastIndex.
    rewrite focusedIndex_open_effects. simpl.
    pose proof (selectedIndex_range d s). lia.
  - intros g s Hg Ho Hs Hlen.
    destruct (updateFocusedOption_effects_fields (set_focusedIndex (g s) s))
      as (_ & Hf & Hl). simpl in Hf, Hl.
    unfold lastIndex in *. rewrite Hl in Hlen. rewrite Hf, Hl.
    specialize (Hs Hlen). unfold lastIndex in Hs. simpl in Hg.
    destruct Hg as [<-|[<-|[<-|[<-|[]]]]];
      unfold next_index, previous_index, first_index, last_index; lia.
  - intros f k s _ Hs Hlen. unfold focus_valid, lastIndex in *; simpl in *.
    rewrite length_alter in *. auto.
  - intros o s Hs. exact Hs.
  - intros v s Hs. exact Hs.
  - intros h s Hs. exact Hs.
  - left. intros s Hs. exact Hs.
  - unfold initDropdowns. rewrite instances_emit.
    apply foldl_init_one_all; [|constructor].
    intros m Hlen. unfold lastIndex; simpl in *. lia.
Qed.

(** ** What [destroy()] does achieve *)

(** After [destroy()] the instance is closed and neither key presses in
    its container nor clicks on its trigger reach one of its methods. *)
Lemma destroyed_ignores_keys p d s key :
  instances p !! d = Some s ->
  exists s',
    instances (destroy d p) !! d = Some s'
    /\ isOpen s' = false
    /\ on_trigger_click s' = false
    /\ on_keydown s' = false
    /\ on_document_click s' = false
    /\ on_option_click s' = on_option_click s
    /\ keydown d key (destroy d p) = destroy d p.
Proof.
  intros Hd. exists (destroy_effects s).
  assert (instances (destroy d p) !! d = Some (destroy_effects s)) as H.
  { unfold destroy. rewrite instances_log_id. by apply lookup_update_eq. }
  repeat split; try done. unfold keydown. by rewrite H.
Qed.


(** [destroy()] does not touch the trigger: its [aria-expanded] stays. *)
Lemma destroy_keeps_trigger p d s :
  instances p !! d = Some s ->
  exists s',
    instances (destroy d p) !! d = Some s'
    /\ isOpen s' = false
    /\ trigger s' = trigger s
    /\ focusedIndex s' = focusedIndex s.
Proof.
  intros Hd. exists (destroy_effects s). split; [|done].
  unfold destroy. rewrite instances_log_id. by apply lookup_update_eq.
Qed.

(** A click on an option of a destroyed instance still reaches
    [selectOption]. *)
Lemma destroyed_option_click_selects p d k s el :
  instances p !! d = Some s -> options s !! k = Some el ->
  on_option_click s = true ->
  click (OptionOf d k) (destroy d p)
  = report (selectOption d (Val (d, k)) (Z.of_nat k) (destroy d p)).
Proof.
  intros Hd Hk Hc. unfold click.
  assert (instances (destroy d p) !! d = Some (destroy_effects s)) as ->.
  { unfold destroy. rewrite instances_log_id. by apply lookup_update_eq. }
  simpl. by rewrite Hk, Hc.
Qed.

(** ** The effect of the loops on every instance *)

Lemma alter_fixed {A} (f : A -> A) (l : list A) i :
  (forall x, l !! i = Some x -> f x = x) -> alter f i l = l.
Proof.
  intros Hf. apply list_eq. intros j.
  destruct (decide (i = j)) as [->|Hne].
  - rewrite list_lookup_alter_eq. destruct (l !! j) as [x|] eqn:Hx; [|done].
    simpl. by rewrite Hf.
  - by rewrite list_lookup_alter_ne.
Qed.

Lemma instances_close d p :
  instances (close d p)
  = alter (fun s => if isOpen s then close_effects s else s) d (instances p).
Proof.
  unfold close. destruct (instances p !! d) as [s|] eqn:Hd.
  - destruct (isOpen s) eqn:Ho; simpl.
    + rewrite instances_log_id, instances_update.
      apply list_alter_ext; [|done].
      intros x Hx. assert (x = s) as -> by congruence. by rewrite Ho.
    + symmetry. apply alter_fixed. intros x Hx.
      assert (x = s) as -> by congruence. by rewrite Ho.
  - symmetry. apply alter_fixed. intros x Hx. congruence.
Qed.

(** A loop whose body for [j] changes instance [j] only changes every
    instance it visits once, by that body. *)
Lemma foldl_alter_each (f : Page -> nat -> Page)
  (G : nat -> Dropdown -> Dropdown) :
  (forall p j, instances (f p j) = alter (G j) j (instances p)) ->
  forall l, List.NoDup l ->
  forall p j s,
    instances p !! j = Some s ->
    (In j l -> instances (foldl f p l) !! j = Some (G j s))
    /\ (~ In j l -> instances (foldl f p l) !! j = Some s).
Proof.
  intros Hf l Hl. induction Hl as [|a l Ha Hl IH]; intros p j s Hj; simpl.
  - split; [done|]. by intros _.
  - destruct (decide (a = j)) as [->|Hne].
    + assert (instances (f p j) !! j = Some (G j s)) as Hj'.
      { by rewrite Hf, list_lookup_alter_eq, Hj. }
      destruct (IH (f p j) j (G j s) Hj') as [_ Hout].
      split; [intros _; by apply Hout|]. intros Hn. destruct Hn. by left.
    + assert (instances (f p a) !! j = Some s) as Hj'.
      { by rewrite Hf, list_lookup_alter_ne. }
      destruct (IH (f p a) j s Hj') as [Hin Hout].
      split.
      * intros [->|Hj2]; [done|by apply Hin].
      * intros Hn. apply Hout. intros Hj2. apply Hn. by right.
Qed.

Lemma instances_close_other d p j :
  instances (close_other d p j)
  = alter (fun s => if negb (Nat.eqb j d) && dropdownInstance s && isOpen s
                    then close_effects s else s) j (instances p).
Proof.
  unfold close_other. destruct (negb (j =? d)%nat) eqn:Hjd; simpl.
  - destruct (instances p !! j) as [s|] eqn:Hj.
    + destruct (dropdownInstance s) eqn:Hi; simpl.
      * rewrite instances_close. apply list_alter_ext; [|done].
        intros x Hx. assert (x = s) as -> by congruence. by rewrite Hi.
      * symmetry. apply alter_fixed. intros x Hx.
        assert (x = s) as -> by congruence. by rewrite Hi.
    + symmetry. apply alter_fixed. intros x Hx. congruence.
  - symmetry. by apply alter_fixed.
Qed.

Lemma close_others_lookup d p j s :
  instances p !! j = Some s ->
  instances (close_others d p) !! j
  = Some (if closed_by_broadcast d j s then close_effects s else s).
Proof.
  intros Hj. unfold close_others.
  destruct (foldl_alter_each (close_other d) _ (instances_close_other d)
              (querySelectorAll_dropdown_is_open p)
              (List.NoDup_filter _ (List.seq_NoDup _ _)) p j s Hj)
    as [Hin Hout].
  unfold closed_by_broadcast.
  destruct (matches_dropdown_is_open s) eqn:Hm.
  - rewrite Hin.
    + by rewrite andb_true_r.
    + apply filter_In. split; [|by rewrite Hj].
      apply in_seq. apply lookup_lt_Some in Hj. lia.
  - rewrite Hout.
    + by rewrite andb_false_r.
    + intros Hin'. apply filter_In in Hin' as [_ Hm'].
      rewrite Hj in Hm'. congruence.
Qed.

Lemma instances_handleClickOutside j t p :
  instances (handleClickOutside j t p)
  = alter (fun s => if isOpen s && negb (contains j t)
                    then close_effects s else s) j (instances p).
Proof.
  unfold handleClickOutside. destruct (instances p !! j) as [s|] eqn:Hj.
  - destruct (isOpen s) eqn:Ho; simpl.
    + destruct (negb (contains j t)) eqn:Hc.
      * rewrite instances_close. apply list_alter_ext; [|done].
        intros x Hx. assert (x = s) as -> by congruence. by rewrite Ho.
      * symmetry. apply alter_fixed. intros x Hx.
        assert (x = s) as -> by congruence. by rewrite Ho.
    + symmetry. apply alter_fixed. intros x Hx.
      assert (x = s) as -> by congruence. by rewrite Ho.
  - symmetry. apply alter_fixed. intros x Hx. congruence.
Qed.

Lemma document_click_lookup t p j s :
  instances p !! j = Some s ->
  instances (document_click t p) !! j
  = Some (if closed_by_click j t s then close_effects s else s).
Proof.
  intros Hj. unfold document_click.
  destruct (foldl_alter_each
              (fun p j => match instances p !! j with
                          | Some s => if on_document_click s
                                      then handleClickOutside j t p
                                      else p
                          | None => p
                          end)
              (fun j s => if closed_by_click j t s
                          then close_effects s else s)) 
    with (l := seq 0 (length (instances p))) (p := p) (j := j) (s := s)
    as [Hin _]; try done.
  - intros q i. destruct (instances q !! i) as [x|] eqn:Hx.
    + destruct (on_document_click x) eqn:Hl.
      * rewrite instances_handleClickOutside.
        apply list_alter_ext; [|done].
        intros y Hy. assert (y = x) as -> by congruence.
        unfold closed_by_click. by rewrite Hl.
      * symmetry. apply alter_fixed. intros y Hy.
        assert (y = x) as -> by congruence.
        unfold closed_by_click. by rewrite Hl.
    + symmetry. apply alter_fixed. intros y Hy. congruence.
  - apply List.seq_NoDup.
  - apply Hin. apply in_seq. apply lookup_lt_Some in Hj. lia.
Qed.

(** ** Construction, once more *)

Lemma init_one_outputs p m :
  map fst (trace (init_one p m))
  = map fst (trace p)
    ++ [ConsoleLog "Dropdown initialized:"
          (Val (element_id (markup_dropdown m)))].
Proof.
  unfold init_one. rewrite trace_update. unfold log_id; simpl.
  rewrite list_lookup_middle by done. simpl. by rewrite map_app.
Qed.

Lemma foldl_init_one ms :
  forall p,
    instances (foldl init_one p ms)
    = instances p
      ++ map (fun m => set_dropdownInstance true (new_Dropdown m)) ms
    /\ map fst (trace (foldl init_one p ms))
       = map fst (trace p)
         ++ map (fun m => ConsoleLog "Dropdown initialized:"
                            (Val (element_id (markup_dropdown m)))) ms.
Proof.
  induction ms as [|m ms IH]; intros p; simpl.
  - by rewrite !app_nil_r.
  - destruct (IH (init_one p m)) as [-> ->].
    rewrite instances_init_one, init_one_outputs.
    by rewrite <- !app_assoc.
Qed.

(** X1.  [initDropdowns()] builds one instance per matching element, in
    document order: closed, without selection or focused index, with its
    four kinds of listeners attached, stored on its container, and with the
    value display marked as placeholder.  It logs the id of every container
    and then the number of dropdowns. *)
Theorem initDropdowns_builds (ms : list Markup) :
  instances (initDropdowns ms)
  = map (fun m => set_dropdownInstance true (new_Dropdown m)) ms
  /\ length (instances (initDropdowns ms)) = length ms
  /\ Forall (fun s => isOpen s = false
                      /\ selectedOption s = Null /\ selectedValue s = Null
                      /\ focusedIndex s = -1
                      /\ on_trigger_click s = true /\ on_option_click s = true
                      /\ on_keydown s = true /\ on_document_click s = true
                      /\ dropdownInstance s = true
                      /\ classList_contains "is-placeholder" (valueDisplay s)
                         = true)
       (instances (initDropdowns ms))
  /\ map fst (trace (initDropdowns ms))
     = map (fun m => ConsoleLog "Dropdown initialized:"
                       (Val (element_id (markup_dropdown m)))) ms
       ++ [ConsoleLogCount (length ms)].
Proof.
  destruct (foldl_init_one ms (mkPage [] [])) as [Hi Ht]. simpl in Hi, Ht.
  unfold initDropdowns. rewrite instances_emit, trace_emit, map_app, Hi, Ht.
  split; [done|]. split; [by rewrite length_map|]. split; [|done].
  apply Forall_forall. intros s Hs. apply list_elem_of_fmap in Hs as (m & -> & _).
  repeat split; try done. simpl. apply classList_contains_add_eq.
Qed.

(** ** How open, close and toggle compose *)

(** X3.  [close()] twice is [close()] once: the second call finds the instance
    closed and returns at its guard, without a second log. *)
Theorem close_idempotent (d : nat) (p : Page) :
  close d (close d p) = close d p.
Proof.
  destruct (instances p !! d) as [s|] eqn:Hd.
  - pose proof (close_lookup_eq d p s Hd) as H.
    unfold close at 1. rewrite H.
    destruct (isOpen s) eqn:Ho; simpl; [done|by rewrite Ho].
  - unfold close. rewrite Hd. by rewrite Hd.
Qed.

(** X4.  [open()] twice is [open()] once: no second broadcast, no second log. *)
Theorem open_idempotent (d : nat) (p : Page) :
  open d (open d p) = open d p.
Proof.
  destruct (instances p !! d) as [s|] eqn:Hd.
  - destruct (isOpen s) eqn:Ho.
    + assert (open d p = p) as -> by (unfold open; by rewrite Hd, Ho).
      unfold open. by rewrite Hd, Ho.
    + pose proof (open_lookup d p s Hd Ho) as H.
      unfold open at 1. by rewrite H.
  - assert (open d p = p) as -> by (unfold open; by rewrite Hd).
    unfold open. by rewrite Hd.
Qed.

(** X5.  [toggle] inverts [isOpen] and keeps the selection; toggled twice, the
    instance is open or closed as before. *)
Theorem toggle_flips (p : Page) (d : nat) (s : Dropdown) :
  instances p !! d = Some s ->
  (exists s',
     instances (toggle d p) !! d = Some s'
     /\ isOpen s' = negb (isOpen s)
     /\ selectedOption s' = selectedOption s
     /\ selectedValue s' = selectedValue s)
  /\ exists s'',
       instances (toggle d (toggle d p)) !! d = Some s''
       /\ isOpen s'' = isOpen s
       /\ selectedOption s'' = selectedOption s
       /\ selectedValue s'' = selectedValue s.
Proof.
  assert (forall q t, instances q !! d = Some t ->
            exists t', instances (toggle d q) !! d = Some t'
                       /\ isOpen t' = negb (isOpen t)
                       /\ selectedOption t' = selectedOption t
                       /\ selectedValue t' = selectedValue t) as Hstep.
  { intros q t Hq. unfold toggle. rewrite Hq.
    destruct (isOpen t) eqn:Ho.
    - exists (close_effects t). rewrite (close_lookup_eq d q t Hq), Ho. done.
    - exists (open_effects d t). by rewrite (open_lookup d q t Hq Ho). }
  intros Hd. destruct (Hstep p s Hd) as (s' & Hs' & Ho' & Hso' & Hsv').
  split; [by exists s'|].
  destruct (Hstep _ s' Hs') as (s'' & Hs'' & Ho'' & Hso'' & Hsv'').
  exists s''. split; [done|]. rewrite Ho'', Ho', Hso'', Hsv''.
  by rewrite negb_involutive.
Qed.

Lemma toggle_flips_witness :
  exists s'',
    instances (toggle 0 (toggle 0 (bare_page false (-1)))) !! 0%nat = Some s''
    /\ isOpen s'' = false.
Proof.
  destruct (toggle_flips (bare_page false (-1)) 0 (bare_dropdown false (-1))
              eq_refl) as [_ (s'' & Hs'' & Ho'' & _)].
  exists s''. split; assumption.
Defined.

(** X2.  The exact effect of [open()] of a closed instance [d] on every instance
    of the page: [d] gets the assignments of [open()], the instances the
    broadcast reaches get those of [close()], and every other instance is
    left as it is. *)
Theorem open_effect_on_page (p : Page) (d j : nat) (s sj : Dropdown) :
  instances p !! d = Some s -> isOpen s = false ->
  instances p !! j = Some sj ->
  instances (open d p) !! j
  = Some (if Nat.eqb j d then open_effects d sj
          else if closed_by_broadcast d j sj then close_effects sj
          else sj).
Proof.
  intros Hd Ho Hj. unfold open. rewrite Hd, Ho, instances_log_id.
  destruct (Nat.eqb_spec j d) as [->|Hne].
  - assert (sj = s) as -> by congruence.
    apply lookup_update_eq. by rewrite close_others_self.
  - rewrite lookup_update_ne by done. by apply close_others_lookup.
Qed.

Lemma open_effect_on_page_witness :
  exists s0 s1,
    instances (open 1 bare_pair) !! 0%nat = Some s0 /\ isOpen s0 = false
    /\ instances (open 1 bare_pair) !! 1%nat = Some s1 /\ isOpen s1 = true.
Proof.
  eexists. eexists. split.
  - exact (open_effect_on_page bare_pair 1 0 _ _ eq_refl eq_refl eq_refl).
  - split; [reflexivity|]. split.
    + exact (open_effect_on_page bare_pair 1 1 _ _ eq_refl eq_refl eq_refl).
    + reflexivity.
Defined.

(** X6.  A click that lands outside every dropdown, or inside a container but
    neither on its trigger nor on an option, reaches the document: it
    closes exactly the open instances that still listen there and do not
    contain the target, and leaves every other instance as it is. *)
Theorem click_elsewhere_closes (p : Page) (t : node) (j : nat) (s : Dropdown) :
  (t = Outside \/ exists d, t = InsideOf d) ->
  instances p !! j = Some s ->
  instances (click t p) !! j
  = Some (if closed_by_click j t s then close_effects s else s).
Proof.
  intros Ht Hj.
  assert (click t p = document_click t p) as ->.
  { by destruct Ht as [->|[d ->]]. }
  by apply document_click_lookup.
Qed.

Lemma click_elsewhere_closes_witness :
  exists s0,
    instances (click Outside bare_pair) !! 0%nat = Some s0
    /\ isOpen s0 = false /\ focusedIndex s0 = -1.
Proof.
  eexists. split.
  - exact (click_elsewhere_closes bare_pair Outside 0 _ (or_introl eq_refl)
             eq_refl).
  - split; reflexivity.
Defined.

(** ** Keys that do nothing, keys that select *)

(** X7.  [handleKeyboard] leaves the page as it is for every key it has no case
    for, for every key but Enter and Space while the instance is closed,
    and for Enter and Space on an open instance without focused option. *)
Theorem handleKeyboard_ignores
  (p : Page) (d : nat) (s : Dropdown) (key : string) :
  instances p !! d = Some s ->
  ~ In key handled_keys
  \/ (isOpen s = false /\ key ≠ "Enter" /\ key ≠ " ")
  \/ (isOpen s = true /\ In key ["Enter"; " "] /\ focusedIndex s < 0) ->
  handleKeyboard d key p = (p, Normal).
Proof.
  intros Hd Hcase. unfold handleKeyboard. rewrite Hd.
  destruct Hcase as [Hn|[(Ho & He & Hs)|(Ho & Hk & Hf)]].
  - assert (forall k, In k handled_keys -> String.eqb key k = false) as Hk.
    { intros k Hin. apply String.eqb_neq. intros ->. by apply Hn. }
    rewrite !Hk by (simpl; auto 10). simpl.
    by destruct (isOpen s).
  - apply String.eqb_neq in He, Hs. by rewrite Ho, He, Hs.
  - rewrite Ho. simpl.
    destruct (Z.leb_spec 0 (focusedIndex s)); [lia|].
    by destruct Hk as [<-|[<-|[]]].
Qed.

Lemma handleKeyboard_ignores_witness :
  handleKeyboard 0 "Tab" (bare_page true 1) = (bare_page true 1, Normal).
Proof.
  apply (handleKeyboard_ignores (bare_page true 1) 0 (bare_dropdown true 1)
           "Tab" eq_refl).
  left. simpl. intros [H|[H|[H|[H|[H|[H|[H|[]]]]]]]]; discriminate H.
Defined.



(** ** [options[i]] and [indexOf] *)

Lemma indexOf_from_found x l i n :
  indexOf_from x l i = n -> i <= n -> 0 <= i ->
  l !! Z.to_nat (n - i) = Some x.
Proof.
  revert i. induction l as [|y l IH]; intros i Hn Hle Hi; simpl in Hn.
  - lia.
  - case_decide as Hxy.
    + rewrite <- Hn, Hxy. by replace (i - i) with 0 by lia.
    + destruct (indexOf_from_range x l (i + 1)) as [Hm|Hr]; [lia|].
      replace (Z.to_nat (n - i)) with (S (Z.to_nat (n - (i + 1)))) by lia.
      simpl. apply IH; lia.
Qed.

Lemma option_refs_lookup d s k r :
  option_refs d s !! k = Some r -> r = (d, k) /\ (k < length (options s))%nat.
Proof.
  unfold option_refs. rewrite list_lookup_fmap.
  destruct (seq 0 (length (options s)) !! k) as [k'|] eqn:Hk; [|done].
  apply lookup_seq in Hk as [-> Hlt]. simpl. by intros [= <-].
Qed.

(** [options[i]] and [options.indexOf] undo one another: the element at a
    valid index is found at that index, and an element that is found is the
    one at the index returned; a number that is no index gives
    [undefined], an element that is not among the options gives -1. *)
Theorem options_at_indexOf (d : nat) (s : Dropdown) :
  (forall i r, options_at d s i = Val r ->
               indexOf r (option_refs d s) = i)
  /\ (forall r, indexOf r (option_refs d s) ≠ -1 ->
                options_at d s (indexOf r (option_refs d s)) = Val r)
  /\ (forall i, i < 0 \/ Z.of_nat (length (options s)) <= i ->
                options_at d s i = Undefined)
  /\ (forall d' k, d' ≠ d \/ (length (options s) <= k)%nat ->
                   indexOf (d', k) (option_refs d s) = -1).
Proof.
  split; [|split; [|split]].
  - intros i r. unfold options_at.
    destruct (Z.leb_spec 0 i); [|done].
    destruct (Z.ltb_spec i (Z.of_nat (length (options s)))); [|done].
    simpl. intros [= <-]. rewrite indexOf_option_refs by lia. lia.
  - intros r Hr. unfold indexOf in *.
    destruct (indexOf_from_range r (option_refs d s) 0) as [Hm|Hin]; [done|].
    pose proof (indexOf_from_found r (option_refs d s) 0 _ eq_refl
                  ltac:(lia) ltac:(lia)) as Hl.
    apply option_refs_lookup in Hl as [Heq Hlt].
    set (n := indexOf_from r (option_refs d s) 0) in *.
    unfold options_at.
    destruct (Z.leb_spec 0 n); [|lia].
    destruct (Z.ltb_spec n (Z.of_nat (length (options s)))); [|lia].
    simpl. rewrite Heq. repeat f_equal. lia.
  - intros i Hi. unfold options_at.
    destruct (Z.leb_spec 0 i); simpl; [|done].
    destruct (Z.ltb_spec i (Z.of_nat (length (options s)))); [lia|done].
  - intros d' k Hk. unfold indexOf.
    destruct (indexOf_from_range (d', k) (option_refs d s) 0) as [Hm|Hin];
      [done|].
    pose proof (indexOf_from_found (d', k) (option_refs d s) 0 _ eq_refl
                  ltac:(lia) ltac:(lia)) as Hl.
    apply option_refs_lookup in Hl as [Heq Hlt].
    injection Heq as Hd' Hk'. rewrite <- Hk' in Hlt.
    destruct Hk as [Hk|Hk]; [done|lia].
Qed.

(** ** The index [selectOption] is called for *)

(** X10.  [selectOption(options[i], i)] for a number that is no index of the
    options - negative, or the length and beyond - throws a TypeError:
    [selectedOption] is [undefined] afterwards, nothing is logged and no
    event is dispatched. *)
Theorem selectOption_at_invalid_index
  (p : Page) (d : nat) (s : Dropdown) (i : Z) :
  instances p !! d = Some s ->
  i < 0 \/ Z.of_nat (length (options s)) <= i ->
  snd (selectOption_at d i p) = Throw "TypeError"
  /\ trace (fst (selectOption_at d i p)) = trace p
  /\ exists s',
       instances (fst (selectOption_at d i p)) !! d = Some s'
       /\ selectedOption s' = Undefined.
Proof.
  intros Hd Hi. unfold selectOption_at. rewrite Hd.
  assert (options_at d s i = Undefined) as ->.
  { unfold options_at. destruct (Z.leb_spec 0 i); simpl; [|done].
    destruct (Z.ltb_spec i (Z.of_nat (length (options s)))); [lia|done]. }
  by apply (selectOption_undefined_throws d i p s).
Qed.

Lemma selectOption_at_invalid_index_witness :
  snd (selectOption_at 0 3 (bare_page true 1)) = Throw "TypeError".
Proof.
  apply (selectOption_at_invalid_index (bare_page true 1) 0
           (bare_dropdown true 1) 3 eq_refl).
  right. simpl. lia.
Defined.

(** ** The keyboard highlight *)

Lemma highlighted_remove e :
  highlighted (classList_remove "is-focused" e) = false.
Proof. apply classList_contains_remove_eq. Qed.

Lemma highlighted_add e : highlighted (classList_add "is-focused" e) = true.
Proof. apply classList_contains_add_eq. Qed.

Lemma highlighted_mark f e :
  In f selection_marks -> highlighted (f e) = highlighted e.
Proof.
  simpl. intros [<-|[<-|[]]]; unfold highlighted, unmark_selected,
    mark_selected, setAttribute, classList_contains; simpl.
  - apply (classList_contains_remove_ne "is-focused" "is-selected"). done.
  - apply (classList_contains_add_ne "is-focused" "is-selected"). done.
Qed.

Lemma updateFocusedOption_effects_highlight s k e :
  options (updateFocusedOption_effects s) !! k = Some e ->
  highlighted e = true <-> focusedIndex s = Z.of_nat k.
Proof.
  unfold updateFocusedOption_effects. simpl. rewrite length_map.
  destruct (Z.leb_spec 0 (focusedIndex s)) as [H0|H0];
    destruct (Z.ltb_spec (focusedIndex s) (Z.of_nat (length (options s))))
      as [H1|H1]; simpl.
  - destruct (decide (Z.to_nat (focusedIndex s) = k)) as [Hk|Hk].
    + rewrite <- Hk, list_lookup_alter_eq.
      destruct (_ !! _); [|done]. simpl. intros [= <-].
      rewrite highlighted_add. split; [lia|done].
    + rewrite list_lookup_alter_ne by done. rewrite list_lookup_fmap.
      destruct (_ !! _); [|done]. simpl. intros [= <-].
      rewrite highlighted_remove. split; [done|lia].
  - intros He. pose proof (lookup_lt_Some _ _ _ He) as Hlt.
    rewrite length_map in Hlt. rewrite list_lookup_fmap in He.
    destruct (_ !! _); [|done]. injection He as <-.
    rewrite highlighted_remove. split; [done|lia].
  - intros He. rewrite list_lookup_fmap in He.
    destruct (_ !! _); [|done]. injection He as <-.
    rewrite highlighted_remove. split; [done|lia].
  - intros He. rewrite list_lookup_fmap in He.
    destruct (_ !! _); [|done]. injection He as <-.
    rewrite highlighted_remove. split; [done|lia].
Qed.

(** X11.  After a navigation key on an open instance, the option at the focused
    index, and no other one, carries the class [is-focused]; when the
    focused index is no index of the options, as on an instance without
    options, none does. *)
Theorem navigation_highlights_focus
  (p : Page) (d : nat) (s : Dropdown) (key : string) :
  instances p !! d = Some s -> isOpen s = true -> In key navigation_keys ->
  exists s',
    instances (fst (handleKeyboard d key p)) !! d = Some s'
    /\ forall k e, options s' !! k = Some e ->
                   (highlighted e = true <-> focusedIndex s' = Z.of_nat k).
Proof.
  intros Hd Ho Hkey.
  destruct (handleKeyboard_navigation d key p s Hd Ho Hkey) as [_ H].
  eexists. split; [exact H|]. intros k e He.
  destruct (updateFocusedOption_effects_fields
              (set_focusedIndex
                 (focus_after (lastIndex s) (focusedIndex s) key) s))
    as (_ & -> & _).
  by apply updateFocusedOption_effects_highlight in He.
Qed.

Lemma navigation_highlights_focus_witness :
  exists s',
    instances (fst (handleKeyboard 0 "End" (bare_page true 0))) !! 0%nat
    = Some s'
    /\ forall k e, options s' !! k = Some e ->
                   (highlighted e = true <-> focusedIndex s' = Z.of_nat k).
Proof.
  apply (navigation_highlights_focus (bare_page true 0) 0
           (bare_dropdown true 0) "End" eq_refl eq_refl).
  simpl. auto 6.
Defined.

(** X12.  As long as [destroy()] is not called, a highlighted option belongs to
    an open instance and sits at its focused index: closed instances show
    no highlight and an open one shows at most one. *)
Theorem highlight_at_focus_run (sts : list step) (p : Page) :
  Forall (fun st => is_destroy st = false) sts ->
  Forall highlight_at_focus (instances p) ->
  Forall highlight_at_focus (instances (run p sts)).
Proof.
  apply keeps_run.
  - intros s _ _ k e He. simpl in He. rewrite list_lookup_fmap in He.
    destruct (_ !! _); [|done]. injection He as <-.
    by rewrite highlighted_remove.
  - intros d s Ho Hs k e He Hh. simpl in He.
    destruct (Hs k e He Hh) as [Ho' _]. congruence.
  - intros g s _ Ho _ k e He Hh.
    destruct (updateFocusedOption_effects_fields (set_focusedIndex (g s) s))
      as (-> & -> & _). split; [done|].
    by apply (updateFocusedOption_effects_highlight _ k e He).
  - intros f k0 s Hf Hs k e He Hh. simpl in *.
    destruct (decide (k0 = k)) as [->|Hne].
    + rewrite list_lookup_alter_eq in He.
      destruct (options s !! k) as [e0|] eqn:He0; [|done].
      injection He as <-. rewrite highlighted_mark in Hh by done.
      by apply (Hs k e0).
    + rewrite list_lookup_alter_ne in He by done. by apply (Hs k e).
  - intros o s Hs. exact Hs.
  - intros v s Hs. exact Hs.
  - intros h s Hs. exact Hs.
Qed.

Lemma highlight_at_focus_run_witness :
  Forall highlight_at_focus
    (instances (run (bare_page false (-1))
                  [Click (TriggerOf 0); KeyDown 0 "ArrowDown"])).
Proof.
  apply highlight_at_focus_run.
  - repeat constructor.
  - constructor; [|constructor]. intros k e He Hh.
    destruct k as [|[|[|k']]]; simpl in He; try discriminate He;
      injection He as <-; discriminate Hh.
Defined.

(** X13.  [open()] sets the focused index to the selected index but highlights
    nothing: on an instance that showed no highlight while closed, no
    option carries [is-focused] after [open()], whatever the focused
    index. *)
Theorem open_does_not_highlight (p : Page) (d : nat) (s : Dropdown) :
  instances p !! d = Some s -> isOpen s = false -> highlight_at_focus s ->
  exists s',
    instances (open d p) !! d = Some s'
    /\ focusedIndex s' = selectedIndex d s
    /\ forall k e, options s' !! k = Some e -> highlighted e = false.
Proof.
  intros Hd Ho Hs. exists (open_effects d s).
  split; [by apply open_lookup|].
  split; [apply focusedIndex_open_effects|].
  intros k e He. simpl in He.
  destruct (highlighted e) eqn:Hh; [|done].
  destruct (Hs k e He Hh) as [Ho' _]. congruence.
Qed.

Lemma open_does_not_highlight_witness :
  exists s',
    instances (open 0 (bare_page false (-1))) !! 0%nat = Some s'
    /\ focusedIndex s' = 2
    /\ forall k e, options s' !! k = Some e -> highlighted e = false.
Proof.
  assert (highlight_at_focus (bare_dropdown false (-1))) as Hs.
  { intros k e He Hh.
    destruct k as [|[|[|k']]]; simpl in He; try discriminate He;
      injection He as <-; discriminate Hh. }
  destruct (open_does_not_highlight (bare_page false (-1)) 0
              (bare_dropdown false (-1)) eq_refl eq_refl Hs)
    as (s' & Hs' & Hf & Hh).
  exists s'. split; [exact Hs'|]. split; [|exact Hh].
  rewrite Hf. reflexivity.
Defined.

(** ** The marks of the selected option *)

Lemma marked_mark e : marked (mark_selected e).
Proof.
  split; simpl.
  - apply classList_contains_add_eq.
  - unfold getAttribute; simpl. apply lookup_insert_eq.
Qed.

Lemma unmarked_unmark e : unmarked (unmark_selected e).
Proof.
  split; simpl.
  - apply classList_contains_remove_eq.
  - unfold getAttribute; simpl. by rewrite lookup_insert_eq.
Qed.

Lemma marks_unfocus e :
  (marked e -> marked (classList_remove "is-focused" e))
  /\ (unmarked e -> unmarked (classList_remove "is-focused" e)).
Proof.
  unfold marked, unmarked, getAttribute; simpl.
  rewrite (classList_contains_remove_ne "is-selected" "is-focused") by done.
  done.
Qed.

Lemma selectOption_own_options p d k i s el :
  instances p !! d = Some s -> options s !! k = Some el ->
  exists s',
    instances (fst (selectOption d (Val (d, k)) i p)) !! d = Some s'
    /\ selectedOption s' = Val (d, k)
    /\ classList_contains "is-placeholder" (valueDisplay s') = false
    /\ options s'
       = (if isOpen s then map (classList_remove "is-focused") else id)
           (alter mark_selected k (previous_unmarked d s)).
Proof.
  intros Hd Hk. unfold selectOption. rewrite Hd.
  set (p1 := match selectedOption s with
             | Val prev => update_option prev unmark_selected p
             | _ => p
             end).
  assert (instances p1 !! d = Some (set_options (previous_unmarked d s) s))
    as H1.
  { unfold p1, previous_unmarked.
    destruct (selectedOption s) as [| |[d' k0]];
      try (rewrite Hd; by destruct s).
    unfold update_option; cbn [fst snd].
    destruct (Nat.eqb_spec d' d) as [->|Hne].
    - by rewrite (lookup_update_eq _ _ _ _ Hd).
    - rewrite lookup_update_ne by done. rewrite Hd. by destruct s. }
  assert (is_Some (previous_unmarked d s !! k)) as [el1 Hel1].
  { apply lookup_lt_is_Some. apply lookup_lt_Some in Hk.
    unfold previous_unmarked. destruct (selectedOption s) as [| |[d' k0]];
      try done. destruct (d' =? d)%nat; [by rewrite length_alter|done]. }
  set (p2 := update d (set_selectedOption (Val (d, k))) p1).
  assert (instances p2 !! d
          = Some (set_selectedOption (Val (d, k))
                    (set_options (previous_unmarked d s) s)))
    as H2 by (by apply lookup_update_eq).
  assert (deref (d, k) p2 = Some el1) as ->.
  { unfold deref; cbn [fst snd]. by rewrite H2. }
  cbn [fst].
  set (p3 := update d (set_selectedValue (dataset_value el1)) p2).
  pose proof (lookup_update_eq d (set_selectedValue (dataset_value el1))
                p2 _ H2) as H3. fold p3 in H3.
  set (p4 := update_option (d, k) mark_selected p3).
  pose proof (lookup_update_eq d
                (fun s => set_options (alter mark_selected k (options s)) s)
                p3 _ H3) as H4.
  change (update d _ p3) with p4 in H4.
  set (p5 := update d (show_selection (innerHTML el1)) p4).
  pose proof (lookup_update_eq d (show_selection (innerHTML el1)) p4 _ H4)
    as H5. fold p5 in H5.
  pose proof (close_lookup_eq d p5 _ H5) as H6.
  rewrite instances_log_selected, instances_emit, H6. simpl.
  eexists. split; [reflexivity|].
  destruct (isOpen s); simpl; repeat split; try done;
    apply classList_contains_remove_eq.
Qed.

(** X14.  [selectOption] on an option of the instance moves the marks with the
    selection: when the class [is-selected] and [aria-selected="true"]
    were on the selected option and on no other one before, they are so
    afterwards, for the new selection; the value display is no longer
    marked as placeholder. *)
Theorem selectOption_keeps_marks_in_sync
  (p : Page) (d k : nat) (s : Dropdown) (el : Element) :
  instances p !! d = Some s -> options s !! k = Some el ->
  selection_in_sync d s ->
  exists s',
    instances (fst (selectOption d (Val (d, k)) (Z.of_nat k) p)) !! d
    = Some s'
    /\ selectedOption s' = Val (d, k)
    /\ selection_in_sync d s'
    /\ classList_contains "is-placeholder" (valueDisplay s') = false.
Proof.
  intros Hd Hk Hsync.
  destruct (selectOption_own_options p d k (Z.of_nat k) s el Hd Hk)
    as (s' & Hs' & Hso & Hph & Hopts).
  exists s'. split; [exact Hs'|]. split; [exact Hso|]. split; [|exact Hph].
  assert (forall j e, alter mark_selected k (previous_unmarked d s) !! j
                      = Some e ->
            (j = k -> marked e) /\ (j ≠ k -> unmarked e)) as Hmid.
  { intros j e He. destruct (decide (k = j)) as [->|Hne].
    - rewrite list_lookup_alter_eq in He.
      destruct (previous_unmarked d s !! j); [|done]. injection He as <-.
      split; [intros _; apply marked_mark|done].
    - rewrite list_lookup_alter_ne in He by done.
      split; [done|]. intros _. unfold previous_unmarked in He.
      destruct (selectedOption s) as [| |[d' k0]] eqn:Hsel.
      + apply (Hsync j e He). congruence.
      + apply (Hsync j e He). congruence.
      + destruct (Nat.eqb_spec d' d) as [->|Hd'].
        * destruct (decide (k0 = j)) as [->|Hk0].
          -- rewrite list_lookup_alter_eq in He.
             destruct (options s !! j); [|done]. injection He as <-.
             apply unmarked_unmark.
          -- rewrite list_lookup_alter_ne in He by done.
             apply (Hsync j e He). congruence.
        * apply (Hsync j e He). congruence. }
  intros j e He. rewrite Hopts in He. rewrite Hso.
  assert (exists e0, alter mark_selected k (previous_unmarked d s) !! j
                     = Some e0
                     /\ (marked e0 -> marked e)
                     /\ (unmarked e0 -> unmarked e)) as (e0 & He0 & Hm & Hu).
  { destruct (isOpen s); simpl in He.
    - rewrite list_lookup_fmap in He.
      destruct (alter mark_selected k (previous_unmarked d s) !! j)
        as [e0|]; [|done].
      injection He as <-.
      exists e0. split; [done|]. apply marks_unfocus.
    - exists e. by split. }
  destruct (Hmid j e0 He0) as [Hk1 Hk2]. split.
  - intros [= ->]. auto.
  - intros Hne. apply Hu, Hk2. congruence.
Qed.

Lemma selectOption_keeps_marks_in_sync_witness :
  exists s',
    instances (fst (selectOption 0 (Val (0%nat, 1%nat)) 1 bare_pair)) !! 0%nat
    = Some s'
    /\ selection_in_sync 0 s'.
Proof.
  assert (selection_in_sync 0
            (mkDropdown (mkElement {["dropdown"; "is-open"]} ∅ "")
               (bare_element "") (bare_element "Select")
               [bare_element "One"; bare_element "Two"]
               true Null Null 1 "Select" true true true true true)) as Hs.
  { intros k e He. split; [discriminate|]. intros _.
    destruct k as [|[|k']]; simpl in He; try discriminate He;
      injection He as <-; split; [reflexivity|discriminate
                                 |reflexivity|discriminate]. }
  destruct (selectOption_keeps_marks_in_sync bare_pair 0 1 _
              (bare_element "Two") eq_refl eq_refl Hs)
    as (s' & Hs' & _ & Hsync & _).
  exists s'. split; assumption.
Defined.

(** ** What only [selectOption] does *)

Lemma notifications_emit_log msg arg p :
  notifications (trace (emit (ConsoleLog msg arg) p)) = notifications (trace p).
Proof.
  rewrite trace_emit, notifications_app. simpl. by rewrite app_nil_r.
Qed.

Lemma notifications_log_id msg d p :
  notifications (trace (log_id msg d p)) = notifications (trace p).
Proof.
  unfold log_id. destruct (instances p !! d); [|done].
  apply notifications_emit_log.
Qed.

Lemma notifications_close d p :
  notifications (trace (close d p)) = notifications (trace p).
Proof.
  unfold close. destruct (instances p !! d) as [s|]; [|done].
  destruct (negb (isOpen s)); [done|].
  by rewrite notifications_log_id, trace_update.
Qed.

Lemma notifications_close_others d p :
  notifications (trace (close_others d p)) = notifications (trace p).
Proof.
  unfold close_others.
  generalize (querySelectorAll_dropdown_is_open p) as l. intros l.
  revert p. induction l as [|j l IH]; intros p; simpl; [done|].
  rewrite IH. unfold close_other.
  destruct (negb (j =? d)%nat); [|done].
  destruct (instances p !! j) as [s|]; [|done].
  destruct (dropdownInstance s); [|done]. apply notifications_close.
Qed.

Lemma notifications_open d p :
  notifications (trace (open d p)) = notifications (trace p).
Proof.
  unfold open. destruct (instances p !! d) as [s|]; [|done].
  destruct (isOpen s); [done|].
  by rewrite notifications_log_id, trace_update, notifications_close_others.
Qed.

(** X15.  Only [selectOption] dispatches: a step that does not reach a call of
    it - a click on a trigger or elsewhere, a key that opens, closes or
    navigates, a call of open, close or destroy - adds no notification. *)
Theorem only_selectOption_notifies (st : step) (p : Page) :
  reaches_select st p = false ->
  notifications (trace (run_step p st)) = notifications (trace p).
Proof.
  intros Hst.
  apply (I_run_step
           (fun q => notifications (trace q) = notifications (trace p))).
  - intros d q Hq. by rewrite notifications_open.
  - intros d q Hq. by rewrite notifications_close.
  - intros d g q s _ Hq _ _. exact Hq.
  - intros err q Hq. rewrite trace_emit, notifications_app, Hq. simpl.
    by rewrite app_nil_r.
  - intros Hsel. congruence.
  - intros _ d. unfold destroy.
    by rewrite notifications_log_id, trace_update.
  - done.
Qed.

Lemma only_selectOption_notifies_witness :
  notifications (trace (run_step (bare_page true 1) (KeyDown 0 "Escape")))
  = notifications (trace (bare_page true 1)).
Proof.
  apply (only_selectOption_notifies (KeyDown 0 "Escape") (bare_page true 1)).
  reflexivity.
Defined.

(** X16.  Only [selectOption] changes what the trigger displays: a step that
    does not reach a call of it leaves the value display of every instance
    as it is, and nothing ever puts the placeholder back. *)
Theorem display_changes_only_on_select
  (st : step) (p : Page) (j : nat) (s : Dropdown) :
  reaches_select st p = false -> instances p !! j = Some s ->
  exists s',
    instances (run_step p st) !! j = Some s'
    /\ valueDisplay s' = valueDisplay s.
Proof.
  intros Hst Hj.
  assert (forall a, same_display a a) as Hr by (by split).
  assert (forall a b c, same_display a b -> same_display b c ->
                        same_display a c) as Htr.
  { intros a b c [? ?] [? ?]. split; congruence. }
  assert (related same_display p (run_step p st)) as [HF _].
  { apply (I_run_step (related same_display p)).
    - intros d q Hq. eapply related_trans; [done|exact Hq|].
      apply related_open; try done.
    - intros d q Hq. eapply related_trans; [done|exact Hq|].
      apply related_close; try done.
    - intros d g q t Hg Hq Hd Ho. eapply related_trans; [done|exact Hq|].
      eapply related_focus; try done.
      intros g' t' _ _. unfold updateFocusedOption_effects.
      by destruct (_ && _).
    - intros err q Hq. eapply related_trans; [done|exact Hq|].
      by apply related_emit.
    - intros Hsel. congruence.
    - intros _ d. apply related_destroy; try done.
    - by apply related_refl. }
  destruct (Forall2_lookup_l _ _ _ _ _ HF Hj) as (s' & Hs' & Hd & _).
  by exists s'.
Qed.

Lemma display_changes_only_on_select_witness :
  exists s',
    instances (run_step (bare_page true 1) (CallClose 0)) !! 0%nat = Some s'
    /\ valueDisplay s' = bare_element "Three".
Proof.
  apply (display_changes_only_on_select (CallClose 0) (bare_page true 1) 0
           (bare_dropdown true 1) eq_refl eq_refl).
Defined.

(** ** The options never change *)

Lemma restyled_trans a b c : restyled a b -> restyled b c -> restyled a c.
Proof. intros [? ?] [? ?]. split; congruence. Qed.

Lemma Forall2_restyled_refl l : Forall2 restyled l l.
Proof. apply Forall_Forall2_diag, Forall_forall. intros. apply restyled_refl. Qed.

Lemma Forall2_restyled_map f l :
  (forall e, restyled e (f e)) -> Forall2 restyled l (map f l).
Proof. intros Hf. induction l; constructor; auto. Qed.

Lemma Forall2_restyled_alter f k l :
  (forall e, restyled e (f e)) -> Forall2 restyled l (alter f k l).
Proof.
  intros Hf. apply Forall2_alter_r; [apply Forall2_restyled_refl|].
  intros x y Hx Hy _. assert (x = y) as -> by congruence. apply Hf.
Qed.

(** X17.  No step adds, removes or reorders options, or changes the value or
    the HTML of one: after every sequence of steps each instance has the
    options it had, up to their classes and [aria-selected]. *)
Theorem options_are_fixed (sts : list step) (p : Page) (j : nat) (s : Dropdown) :
  instances p !! j = Some s ->
  exists s',
    instances (run p sts) !! j = Some s'
    /\ length (options s') = length (options s)
    /\ forall k e, options s !! k = Some e ->
         exists e', options s' !! k = Some e'
                    /\ innerHTML e' = innerHTML e
                    /\ dataset_value e' = dataset_value e.
Proof.
  intros Hj.
  assert (forall a, same_options a a) as Hr.
  { intros a. apply Forall2_restyled_refl. }
  assert (forall a b c, same_options a b -> same_options b c ->
                        same_options a c) as Htr.
  { intros a b c. apply Forall2_trans. apply restyled_trans. }
  assert (forall c e, restyled e (classList_remove c e)) as Hrem by done.
  assert (forall c e, restyled e (classList_add c e)) as Hadd by done.
  assert (forall a, isOpen a = true -> same_options a (close_effects a))
    as Hclose.
  { intros a _. apply Forall2_restyled_map. apply Hrem. }
  assert (related same_options p (run p sts)) as [HF _].
  { apply (I_run (related same_options p)).
    - intros d q Hq. eapply related_trans; [done|exact Hq|].
      apply related_open; try done.
      intros d0 s0 _. apply Forall2_restyled_refl.
    - intros d q Hq. eapply related_trans; [done|exact Hq|].
      by apply related_close.
    - intros d g q t Hg Hq Hd Ho. eapply related_trans; [done|exact Hq|].
      eapply related_focus; try done.
      intros g' t' _ _. unfold updateFocusedOption_effects, same_options.
      destruct (_ && _); simpl.
      + eapply Forall2_trans; [apply restyled_trans| |].
        * apply (Forall2_restyled_map (classList_remove "is-focused")).
          apply Hrem.
        * apply Forall2_restyled_alter. apply Hadd.
      + apply Forall2_restyled_map. apply Hrem.
    - intros err q Hq. eapply related_trans; [done|exact Hq|].
      by apply related_emit.
    - intros q Hq d o i. eapply related_trans; [done|exact Hq|].
      apply related_selectOption; try done.
      all: try (intros; apply Forall2_restyled_refl).
      intros f k t Hf. apply Forall2_restyled_alter.
      simpl in Hf. destruct Hf as [<-|[<-|[]]];
        [apply restyled_unmark|apply restyled_mark].
    - intros st q _ _ Hq d. eapply related_trans; [done|exact Hq|].
      apply related_destroy; try done.
    - by apply related_refl. }
  destruct (Forall2_lookup_l _ _ _ _ _ HF Hj) as (s' & Hs' & Hopts).
  exists s'. split; [done|]. split.
  - symmetry. by eapply Forall2_length.
  - intros k e He.
    destruct (Forall2_lookup_l _ _ _ _ _ Hopts He) as (e' & He' & ? & ?).
    by exists e'.
Qed.

Lemma options_are_fixed_witness :
  exists s',
    instances (run (bare_page false (-1))
                 [Click (TriggerOf 0); KeyDown 0 "End"; KeyDown 0 "Enter"])
      !! 0%nat = Some s'
    /\ length (options s') = 3%nat.
Proof.
  destruct (options_are_fixed
              [Click (TriggerOf 0); KeyDown 0 "End"; KeyDown 0 "Enter"]
              (bare_page false (-1)) 0 (bare_dropdown false (-1)) eq_refl)
    as (s' & Hs' & Hl & _).
  exists s'. split; assumption.
Defined.

(** ** A destroyed instance *)

(** X18.  After [destroy()], key presses in the container and clicks on the
    trigger, elsewhere in the container or outside leave the instance as
    [destroy()] left it: closed, with the selection, the focused index and
    the attributes it had. *)
Theorem destroyed_instance_is_inert
  (p : Page) (d : nat) (s : Dropdown) (st : step) :
  instances p !! d = Some s ->
  (exists key, st = KeyDown d key)
  \/ st = Click (TriggerOf d) \/ st = Click (InsideOf d)
  \/ st = Click Outside ->
  instances (destroy d p) !! d = Some (destroy_effects s)
  /\ instances (run_step (destroy d p) st) !! d = Some (destroy_effects s).
Proof.
  intros Hd Hst.
  assert (instances (destroy d p) !! d = Some (destroy_effects s)) as H.
  { unfold destroy. rewrite instances_log_id. by apply lookup_update_eq. }
  split; [exact H|].
  destruct Hst as [[key ->] | [-> | [-> | ->]]]; simpl.
  - unfold keydown. by rewrite H.
  - rewrite H. simpl. by rewrite (document_click_lookup _ _ _ _ H).
  - by rewrite (document_click_lookup _ _ _ _ H).
  - by rewrite (document_click_lookup _ _ _ _ H).
Qed.

Lemma destroyed_instance_is_inert_witness :
  instances (run_step (destroy 0 (bare_page true 1)) (KeyDown 0 "Enter"))
    !! 0%nat
  = Some (destroy_effects (bare_dropdown true 1)).
Proof.
  apply (destroyed_instance_is_inert (bare_page true 1) 0
           (bare_dropdown true 1) (KeyDown 0 "Enter") eq_refl).
  left. by exists "Enter".
Defined.

(** ** Witnesses of the invariants of pages that are never destroyed *)

Lemma unfocused_when_closed_run_witness :
  Forall unfocused_when_closed
    (instances (run (initDropdowns sample_markups) sample_steps)).
Proof.
  apply unfocused_when_closed_run. repeat constructor.
Defined.

Lemma expanded_in_sync_run_witness :
  Forall expanded_in_sync
    (instances (run (mkPage [set_trigger
                               (setAttribute "aria-expanded" "false"
                                  (bare_element ""))
                               (bare_dropdown false (-1))] [])
                  [Click (TriggerOf 0); KeyDown 0 "Escape"])).
Proof.
  apply expanded_in_sync_run; repeat constructor.
Defined.

(** ** Selecting, then opening *)

(** X9.  When an option has been selected, the next [open()] puts the focused
    index on it: [selectOption(options[k], k)] followed by [open()] leaves
    the instance open with focused index [k]. *)
Theorem open_after_select_focuses
  (p : Page) (d k : nat) (s : Dropdown) (el : Element) :
  instances p !! d = Some s -> options s !! k = Some el ->
  exists q s',
    selectOption d (Val (d, k)) (Z.of_nat k) p = (q, Normal)
    /\ instances (open d q) !! d = Some s'
    /\ isOpen s' = true
    /\ focusedIndex s' = Z.of_nat k.
Proof.
  intros Hd Hk.
  destruct (selectOption_own p d k (Z.of_nat k) s el Hd Hk)
    as (q & s1 & Hq & Hs1 & Ho & Hso & _ & _ & Hlen & _).
  exists q, (open_effects d s1). split; [exact Hq|].
  split; [by apply open_lookup|]. split; [done|].
  rewrite focusedIndex_open_effects. apply selectedIndex_own; [done|].
  rewrite Hlen. by eapply lookup_lt_Some.
Qed.

Lemma open_after_select_focuses_witness :
  exists q s',
    selectOption 0 (Val (0%nat, 1%nat)) 1 (bare_page true 0) = (q, Normal)
    /\ instances (open 0 q) !! 0%nat = Some s'
    /\ focusedIndex s' = 1.
Proof.
  destruct (open_after_select_focuses (bare_page true 0) 0 1
              (bare_dropdown true 0) (bare_element "Two") eq_refl eq_refl)
    as (q & s' & Hq & Hs' & _ & Hf).
  exists q, s'. repeat split; assumption.
Defined.
